(** * Steam download monitor: a shallow embedding of [log_steam.py]

    The development follows the source file top-down: first the fragment of
    Python the monitor relies on (substring tests, the regular expressions of
    [re.search], [int], [float], binary64 arithmetic and the [.2f] / [.1f]
    format specifications), then the methods of [SteamDownloadMonitor]
    ([get_game_name_from_manifest], [parse_log_file], [format_speed],
    [format_size], [display_info] and the body of the loop of [monitor]), and
    finally the properties of the specification.

    Modelling conventions.
    - A Python [str] is a [string]; non-ASCII text is kept as its UTF-8 bytes,
      and the classes [\d] and [\s] are modelled on their ASCII members.
    - A Python [int] is a [Z].  A Python [float] is a [pyfloat]: a signed
      dyadic number with an odd mantissa, an infinity or a NaN, with every
      operation rounded to the nearest binary64 value, ties to even.
    - [None]-or-value is an [option].
    - An exception is a value of [exn]; code that may raise returns an
      [outcome].  The logger and the two attributes [current_appid] and
      [game_name] are threaded through the monad [M]. *)

From Stdlib Require Import ZArith List String Ascii Bool Lia.
Import ListNotations.

Local Open Scope string_scope.
Local Open Scope Z_scope.

(* ================================================================== *)
(** * Exceptions                                                       *)
(* ================================================================== *)

Inductive exn : Type :=
| ValueError (msg : string)
| OverflowError (msg : string)
| ZeroDivisionError (msg : string).

(** [str(e)] *)
Definition exn_message (e : exn) : string :=
  match e with
  | ValueError msg => msg
  | OverflowError msg => msg
  | ZeroDivisionError msg => msg
  end.

Inductive outcome (A : Type) : Type :=
| Ok (a : A)
| Raise (e : exn).

Arguments Ok {A} a.
Arguments Raise {A} e.

Definition obind {A B : Type} (c : outcome A) (k : A -> outcome B) : outcome B :=
  match c with
  | Ok a => k a
  | Raise e => Raise e
  end.

Declare Scope outcome_scope.
Delimit Scope outcome_scope with outcome.
Notation "x <- c ;; k" := (obind c (fun x => k))
  (at level 61, c at next level, right associativity) : outcome_scope.
Local Open Scope outcome_scope.

(* ================================================================== *)
(** * Strings                                                          *)
(* ================================================================== *)

Module Str.

Definition dquote : ascii := "034"%char.
Definition squote : ascii := "039"%char.
Definition newline : ascii := "010"%char.

(** [\d] on ASCII. *)
Definition is_digit (c : ascii) : bool :=
  let n := nat_of_ascii c in (48 <=? n)%nat && (n <=? 57)%nat.

(** [\s]: the characters below 128 for which [str.isspace] holds. *)
Definition is_space (c : ascii) : bool :=
  let n := nat_of_ascii c in
  ((9 <=? n)%nat && (n <=? 13)%nat)
  || ((28 <=? n)%nat && (n <=? 32)%nat).

(** [[\d.]] *)
Definition is_digit_or_dot (c : ascii) : bool :=
  is_digit c || Ascii.eqb c "."%char.

(** Any character but the double quote. *)
Definition not_dquote (c : ascii) : bool := negb (Ascii.eqb c dquote).

(** [s.startswith(p)], returning the rest of [s]. *)
Fixpoint drop_prefix (p s : string) : option string :=
  match p with
  | EmptyString => Some s
  | String a p' =>
      match s with
      | EmptyString => None
      | String b s' => if Ascii.eqb a b then drop_prefix p' s' else None
      end
  end.

Definition starts_with (p s : string) : bool :=
  match drop_prefix p s with Some _ => true | None => false end.

(** [needle in hay] *)
Fixpoint contains (needle hay : string) : bool :=
  if starts_with needle hay then true
  else match hay with
       | EmptyString => false
       | String _ hay' => contains needle hay'
       end.

(** [c * n] for a one-character string. *)
Fixpoint repeat (c : ascii) (n : nat) : string :=
  match n with
  | O => EmptyString
  | S n' => String c (repeat c n')
  end.

Definition digit_char (d : Z) : ascii := ascii_of_nat (48 + Z.to_nat d).

(** Decimal digits of a non-negative number, most significant first; the
    fuel is the number of digits still allowed. *)
Fixpoint digits_fuel (fuel : nat) (n : Z) (acc : string) : string :=
  match fuel with
  | O => acc
  | S fuel' =>
      let acc' := String (digit_char (n mod 10)) acc in
      if n <? 10 then acc' else digits_fuel fuel' (n / 10) acc'
  end.

Definition digits (n : Z) : string :=
  digits_fuel (S (Z.to_nat (Z.log2 n))) n EmptyString.

(** [str(n)] for an [int]. *)
Definition of_int (n : Z) : string :=
  if n <? 0 then String "-"%char (digits (- n)) else digits n.

(** [s.rjust(width, '0')] *)
Definition zero_pad (width : nat) (s : string) : string :=
  repeat "0"%char (width - String.length s) ++ s.

End Str.

(* ================================================================== *)
(** * Regular expressions                                              *)
(* ================================================================== *)

(** The five patterns of the program are sequences of literals, of [c+] and
    of capturing groups [(c+)] for a character class [c].  [search] is
    [re.search]: the leftmost match, every [+] greedy with backtracking; the
    result lists the captured groups, [group(1)] first. *)
Module Re.

Inductive atom : Type :=
| Lit (s : string)
| Plus (c : ascii -> bool)
| Group (c : ascii -> bool).

Definition pattern : Type := list atom.

Fixpoint match_here (p : pattern) (s : string) {struct p} : option (list string) :=
  match p with
  | [] => Some []
  | Lit l :: p' =>
      match Str.drop_prefix l s with
      | Some rest => match_here p' rest
      | None => None
      end
  | Plus c :: p' =>
      (fix more (s : string) : option (list string) :=
         match s with
         | EmptyString => None
         | String a s' =>
             if c a then
               match more s' with
               | Some gs => Some gs
               | None => match_here p' s'
               end
             else None
         end) s
  | Group c :: p' =>
      (fix more (acc : string) (s : string) : option (list string) :=
         match s with
         | EmptyString => None
         | String a s' =>
             if c a then
               let acc' := acc ++ String a EmptyString in
               match more acc' s' with
               | Some gs => Some gs
               | None => option_map (cons acc') (match_here p' s')
               end
             else None
         end) EmptyString s
  end.

Fixpoint search (p : pattern) (s : string) : option (list string) :=
  match match_here p s with
  | Some gs => Some gs
  | None =>
      match s with
      | EmptyString => None
      | String _ s' => search p s'
      end
  end.

(** [m.group(i)], [i >= 1]. *)
Definition group (gs : list string) (i : nat) : string :=
  nth (i - 1) gs EmptyString.

End Re.

(* ================================================================== *)
(** * Python numbers                                                   *)
(* ================================================================== *)

(** [int(tok)] on the tokens a [\d+] group captures.  The interpreter's
    optional limit on the number of digits is not modelled. *)
Module PyInt.

Definition digit_value (c : ascii) : Z := Z.of_nat (nat_of_ascii c) - 48.

Fixpoint value_from (acc : Z) (s : string) : option Z :=
  match s with
  | EmptyString => Some acc
  | String c s' =>
      if Str.is_digit c then value_from (10 * acc + digit_value c) s'
      else None
  end.

Definition repr (s : string) : string :=
  String Str.squote (s ++ String Str.squote EmptyString).

Definition of_string (tok : string) : outcome Z :=
  match tok with
  | EmptyString =>
      Raise (ValueError ("invalid literal for int() with base 10: " ++ repr tok))
  | _ =>
      match value_from 0 tok with
      | Some n => Ok n
      | None =>
          Raise (ValueError ("invalid literal for int() with base 10: " ++ repr tok))
      end
  end.

End PyInt.

(** Binary64 floating point, as far as the program uses it: conversion from
    a decimal token, [int / int], [float / int], [float * int], comparison
    with an [int], and fixed-point formatting.  Every result is the exact
    value rounded to the nearest binary64 number, ties to even, with gradual
    underflow. *)
Module PyFloat.

(** [Finite neg m e] is [(-1)^neg * m * 2^e]; [m] is odd, or [m = 0] and
    [e = 0]. *)
Inductive pyfloat : Type :=
| Finite (neg : bool) (m : Z) (e : Z)
| Inf (neg : bool)
| NaN.

Fixpoint strip (p : positive) (e : Z) : positive * Z :=
  match p with
  | xO p' => strip p' (e + 1)
  | _ => (p, e)
  end.

Definition dyadic (neg : bool) (m e : Z) : pyfloat :=
  match m with
  | Zpos p => let '(p', e') := strip p e in Finite neg (Zpos p') e'
  | _ => Finite neg 0 0
  end.

(** [floor (log2 (p / q))] for positive [p] and [q]. *)
Definition floor_log2 (p q : Z) : Z :=
  let k := Z.log2 p - Z.log2 q in
  if q * 2 ^ Z.max k 0 <=? p * 2 ^ Z.max (- k) 0 then k else k - 1.

(** [num / den] rounded to the nearest integer, ties to even. *)
Definition round_half_even (num den : Z) : Z :=
  let m := num / den in
  let r := num mod den in
  if (den <? 2 * r) || ((2 * r =? den) && Z.odd m) then m + 1 else m.

(** The binary64 number nearest to [p / q] ([0 <= p], [0 < q]) as a
    mantissa below [2^53] and an exponent; [None] when that number would
    exceed the largest finite binary64 value. *)
Definition nearest (p q : Z) : option (Z * Z) :=
  if p =? 0 then Some (0, 0) else
  let e := Z.max (floor_log2 p q - 52) (-1074) in
  let m := round_half_even (p * 2 ^ Z.max (- e) 0) (q * 2 ^ Z.max e 0) in
  let '(m, e) := if m =? 2 ^ 53 then (2 ^ 52, e + 1) else (m, e) in
  if 971 <? e then None else Some (m, e).

(** IEEE rounding of the signed rational [(-1)^neg * p / q]: overflow
    gives an infinity. *)
Definition round (neg : bool) (p q : Z) : pyfloat :=
  match nearest p q with
  | Some (m, e) => dyadic neg m e
  | None => Inf neg
  end.

(** The exact value of a finite float as a fraction [num / den]. *)
Definition num (m e : Z) : Z := m * 2 ^ Z.max e 0.
Definition den (e : Z) : Z := 2 ^ Z.max (- e) 0.

(** [a / b] on two [int]s: correctly rounded, [ZeroDivisionError] when
    [b] is zero and [OverflowError] when the quotient is too large. *)
Definition int_truediv (a b : Z) : outcome pyfloat :=
  if b =? 0 then Raise (ZeroDivisionError "division by zero") else
  match nearest (Z.abs a) (Z.abs b) with
  | Some (m, e) => Ok (dyadic (xorb (a <? 0) (b <? 0)) m e)
  | None => Raise (OverflowError "integer division result too large for a float")
  end.

(** [x / n] for a float [x] and a positive [int] constant [n]. *)
Definition div_int (x : pyfloat) (n : positive) : pyfloat :=
  match x with
  | Finite neg m e => round neg (num m e) (den e * Zpos n)
  | Inf neg => Inf neg
  | NaN => NaN
  end.

(** [x * n] for a float [x] and a positive [int] constant [n]. *)
Definition mul_int (x : pyfloat) (n : positive) : pyfloat :=
  match x with
  | Finite neg m e => round neg (num m e * Zpos n) (den e)
  | Inf neg => Inf neg
  | NaN => NaN
  end.

(** [x >= n] for a float [x] and an [int] [n]. *)
Definition ge_int (x : pyfloat) (n : Z) : bool :=
  match x with
  | Finite neg m e => n * den e <=? (if neg then - num m e else num m e)
  | Inf neg => negb neg
  | NaN => false
  end.

(** [float(tok)] on the tokens a [[\d.]+] group captures: digits with at
    most one dot and at least one digit; anything else raises. *)
Fixpoint scan_token (s : string) (int_part : Z) (frac_digits : option Z)
  (seen_digit : bool) : option (Z * Z) :=
  match s with
  | EmptyString =>
      if seen_digit
      then Some (int_part, match frac_digits with Some k => k | None => 0 end)
      else None
  | String c s' =>
      if Str.is_digit c then
        scan_token s' (10 * int_part + PyInt.digit_value c)
          (option_map Z.succ frac_digits) true
      else if Ascii.eqb c "."%char then
        match frac_digits with
        | None => scan_token s' int_part (Some 0) seen_digit
        | Some _ => None
        end
      else None
  end.

Definition of_string (tok : string) : outcome pyfloat :=
  match scan_token tok 0 None false with
  | Some (n, k) => Ok (round false n (10 ^ k))
  | None =>
      Raise (ValueError ("could not convert string to float: " ++ PyInt.repr tok))
  end.

(** [format(x, '.<prec>f')] *)
Definition format_fixed (prec : nat) (x : pyfloat) : string :=
  match x with
  | Finite neg m e =>
      let scale := 10 ^ Z.of_nat prec in
      let n := round_half_even (num m e * scale) (den e) in
      (if neg then "-" else EmptyString)
      ++ Str.of_int (n / scale)
      ++ match prec with
         | O => EmptyString
         | _ => "." ++ Str.zero_pad prec (Str.of_int (n mod scale))
         end
  | Inf neg => if neg then "-inf" else "inf"
  | NaN => "nan"
  end.

End PyFloat.

Export PyFloat(pyfloat, Finite, Inf, NaN).

(* ================================================================== *)
(** * [parse_log_file]: the scan of the line window                    *)
(* ================================================================== *)

(** The values of [status]. *)
Definition UNKNOWN : string := "неизвестно".
Definition DOWNLOADING : string := "загружается".
Definition PAUSED : string := "на паузе".
Definition VERIFYING : string := "проверка файлов".
Definition PREALLOCATING : string := "подготовка места".
Definition STAGING : string := "распаковка".

(** [r'AppID\s+(\d+)'] *)
Definition appid_re : Re.pattern :=
  [Re.Lit "AppID"; Re.Plus Str.is_space; Re.Group Str.is_digit].

(** [r'Current download rate:\s+([\d.]+)\s+Mbps'] *)
Definition speed_re : Re.pattern :=
  [Re.Lit "Current download rate:"; Re.Plus Str.is_space;
   Re.Group Str.is_digit_or_dot; Re.Plus Str.is_space; Re.Lit "Mbps"].

(** [r'download\s+(\d+)/(\d+)'] *)
Definition size_re : Re.pattern :=
  [Re.Lit "download"; Re.Plus Str.is_space; Re.Group Str.is_digit;
   Re.Lit "/"; Re.Group Str.is_digit].

(** The local variables that live across the iterations of the loop. *)
Record locals : Type := Locals {
  appid : option string;
  download_speed : option pyfloat;
  status : string
}.

(** What [parse_log_file] returns: the tuple [None, None, None] of its two
    early exits, or a tuple of six values. *)
Inductive parse_result : Type :=
| NoneTriple
| Tuple6 (appid : option string) (speed : option pyfloat) (status : string)
         (progress : option pyfloat) (downloaded total : option Z).

(** One iteration either falls through to the next line or returns. *)
Inductive flow : Type :=
| Next (st : locals)
| Return (r : parse_result).

(** Truth value of an optional [str]. *)
Definition truthy (s : option string) : bool :=
  match s with
  | None | Some EmptyString => false
  | Some _ => true
  end.

Definition find_appid (st : locals) (line : string) : locals :=
  match appid st with
  | None =>
      match Re.search appid_re line with
      | Some gs => Locals (Some (Re.group gs 1)) (download_speed st) (status st)
      | None => st
      end
  | Some _ => st
  end.

Definition find_speed (st : locals) (line : string) : outcome locals :=
  match download_speed st with
  | None =>
      match Re.search speed_re line with
      | Some gs =>
          x <- PyFloat.of_string (Re.group gs 1) ;;
          Ok (Locals (appid st) (Some x) (status st))
      | None => Ok st
      end
  | Some _ => Ok st
  end.

Definition find_status (st : locals) (line : string) : locals :=
  if Str.contains "App update changed" line then
    if Str.contains "Downloading" line then
      Locals (appid st) (download_speed st) DOWNLOADING
    else if Str.contains "Paused" line then
      Locals (appid st) (download_speed st) PAUSED
    else if Str.contains "Verifying" line then
      Locals (appid st) (download_speed st) VERIFYING
    else if Str.contains "Preallocating" line then
      Locals (appid st) (download_speed st) PREALLOCATING
    else if Str.contains "Staging" line then
      Locals (appid st) (download_speed st) STAGING
    else st
  else st.

Definition find_size (st : locals) (line : string) : outcome flow :=
  if Str.contains "update started" line && truthy (appid st) then
    match Re.search size_re line with
    | Some gs =>
        downloaded <- PyInt.of_string (Re.group gs 1) ;;
        total <- PyInt.of_string (Re.group gs 2) ;;
        if 0 <? total then
          q <- PyFloat.int_truediv downloaded total ;;
          let progress := PyFloat.mul_int q 100 in
          Ok (Return (Tuple6 (appid st) (download_speed st) (status st)
                        (Some progress) (Some downloaded) (Some total)))
        else Ok (Next st)
    | None => Ok (Next st)
    end
  else Ok (Next st).

(** The body of [for line in reversed(lines)]. *)
Definition scan_line (st : locals) (line : string) : outcome flow :=
  let st := find_appid st line in
  st <- find_speed st line ;;
  let st := find_status st line in
  find_size st line.

(** The loop over the reversed window, and the [return] after it. *)
Fixpoint scan (reversed_lines : list string) (st : locals) : outcome parse_result :=
  match reversed_lines with
  | [] => Ok (Tuple6 (appid st) (download_speed st) (status st) None None None)
  | line :: rest =>
      f <- scan_line st line ;;
      match f with
      | Next st' => scan rest st'
      | Return r => Ok r
      end
  end.

Definition initial_locals : locals := Locals None None UNKNOWN.

(** [lines[-50:]] when there are more than 50 lines, [lines] otherwise. *)
Definition last_lines (lines : list string) : list string :=
  if (50 <? List.length lines)%nat
  then skipn (List.length lines - 50) lines
  else lines.

(** [parse_log_file] from the point where the window is in [lines]. *)
Definition parse_lines (lines : list string) : outcome parse_result :=
  scan (rev lines) initial_locals.

(* ================================================================== *)
(** * [format_speed] and [format_size]                                 *)
(* ================================================================== *)

Definition format_speed (speed_mbps : option pyfloat) : string :=
  match speed_mbps with
  | None => "неизвестно"
  | Some speed_mbps =>
      if PyFloat.ge_int speed_mbps 1000
      then PyFloat.format_fixed 2 (PyFloat.div_int speed_mbps 1000) ++ " Gbps"
      else PyFloat.format_fixed 2 speed_mbps ++ " Mbps"
  end.

Definition format_size (bytes_size : option Z) : outcome string :=
  match bytes_size with
  | None => Ok "неизвестно"
  | Some bytes_size =>
      if 1024 ^ 3 <=? bytes_size then
        x <- PyFloat.int_truediv bytes_size (1024 ^ 3) ;;
        Ok (PyFloat.format_fixed 2 x ++ " GB")
      else if 1024 ^ 2 <=? bytes_size then
        x <- PyFloat.int_truediv bytes_size (1024 ^ 2) ;;
        Ok (PyFloat.format_fixed 2 x ++ " MB")
      else if 1024 <=? bytes_size then
        x <- PyFloat.int_truediv bytes_size 1024 ;;
        Ok (PyFloat.format_fixed 2 x ++ " KB")
      else Ok (Str.of_int bytes_size ++ " B")
  end.

(* ================================================================== *)
(** * The monitor object and its environment                           *)
(* ================================================================== *)

(** A file as the program meets it: missing, present but failing to open
    or read with an error text, or readable. *)
Inductive file (A : Type) : Type :=
| Absent
| Unreadable (err : string)
| Readable (content : A).

Arguments Absent {A}.
Arguments Unreadable {A} err.
Arguments Readable {A} content.

(** What a check reads: [content_log.txt] as [readlines] returns it, its
    path as it is printed, and the manifest file of every identifier. *)
Record world : Type := World {
  log_file_path : string;
  log_file : file (list string);
  manifest : string -> file string
}.

Inductive level : Type := INFO | WARNING | ERROR.

(** The attributes the methods write, and the records handed to the
    logger, oldest first. *)
Record monitor : Type := Monitor {
  current_appid : option string;
  game_name : option string;
  records : list (level * string)
}.

Definition M (A : Type) : Type := monitor -> outcome A * monitor.

Definition ret {A : Type} (a : A) : M A := fun s => (Ok a, s).

Definition bind {A B : Type} (c : M A) (k : A -> M B) : M B :=
  fun s =>
    match c s with
    | (Ok a, s') => k a s'
    | (Raise e, s') => (Raise e, s')
    end.

Definition lift {A : Type} (o : outcome A) : M A := fun s => (o, s).

Definition emit (l : level) (msg : string) : M unit :=
  fun s =>
    (Ok tt, Monitor (current_appid s) (game_name s) (records s ++ [(l, msg)])).

Definition set_game_name (name : string) : M unit :=
  fun s => (Ok tt, Monitor (current_appid s) (Some name) (records s)).

Definition set_current_appid (a : string) : M unit :=
  fun s => (Ok tt, Monitor (Some a) (game_name s) (records s)).

Definition get_current_appid : M (option string) :=
  fun s => (Ok (current_appid s), s).

Definition get_game_name : M (option string) :=
  fun s => (Ok (game_name s), s).

Declare Scope monitor_scope.
Delimit Scope monitor_scope with monitor.
Notation "x <- c ;; k" := (bind c (fun x => k))
  (at level 61, c at next level, right associativity) : monitor_scope.
Notation "c ;;; k" := (bind c (fun _ => k))
  (at level 61, right associativity) : monitor_scope.
Local Open Scope monitor_scope.

(** [when c body] is [if c: body]. *)
Definition when (c : bool) (body : M unit) : M unit :=
  if c then body else ret tt.

(** [for x in xs: body x] *)
Fixpoint for_each {A : Type} (xs : list A) (body : A -> M unit) : M unit :=
  match xs with
  | [] => ret tt
  | x :: xs' => body x ;;; for_each xs' body
  end.

(** [str(x)] for an optional [str]. *)
Definition str_of_option (s : option string) : string :=
  match s with
  | None => "None"
  | Some s => s
  end.

(* ================================================================== *)
(** * [get_game_name_from_manifest]                                    *)
(* ================================================================== *)

(** The name between double quotes after the quoted key. *)
Definition quoted_name_re : Re.pattern :=
  [Re.Lit (String Str.dquote ("name" ++ String Str.dquote EmptyString));
   Re.Plus Str.is_space;
   Re.Lit (String Str.dquote EmptyString);
   Re.Group Str.not_dquote;
   Re.Lit (String Str.dquote EmptyString)].

(** The name between double quotes after the bare key. *)
Definition bare_name_re : Re.pattern :=
  [Re.Lit "name";
   Re.Plus Str.is_space;
   Re.Lit (String Str.dquote EmptyString);
   Re.Group Str.not_dquote;
   Re.Lit (String Str.dquote EmptyString)].

Definition placeholder (appid : string) : string :=
  "Игра (AppID: " ++ appid ++ ")".

Definition get_game_name_from_manifest (w : world) (appid : string) : M string :=
  match manifest w appid with
  | Absent => ret (placeholder appid)
  | Unreadable err =>
      emit ERROR ("Ошибка чтения манифеста: " ++ err) ;;;
      ret (placeholder appid)
  | Readable content =>
      match Re.search quoted_name_re content with
      | Some gs => ret (Re.group gs 1)
      | None =>
          match Re.search bare_name_re content with
          | Some gs => ret (Re.group gs 1)
          | None => ret (placeholder appid)
          end
      end
  end.

(* ================================================================== *)
(** * [parse_log_file], [display_info] and the loop of [monitor]       *)
(* ================================================================== *)

Definition parse_log_file (w : world) : M parse_result :=
  match log_file w with
  | Absent =>
      emit WARNING ("Файл логов не найден: " ++ log_file_path w) ;;;
      ret NoneTriple
  | Unreadable err =>
      emit ERROR ("Ошибка чтения лог-файла: " ++ err) ;;;
      ret NoneTriple
  | Readable lines => lift (parse_lines (last_lines lines))
  end.

(** [a, b, c, d, e, f = t] *)
Definition unpack6 (t : parse_result)
  : M (option string * option pyfloat * string * option pyfloat
       * option Z * option Z) :=
  match t with
  | NoneTriple =>
      lift (Raise (ValueError "not enough values to unpack (expected 6, got 3)"))
  | Tuple6 a sp st pr d t => ret (a, sp, st, pr, d, t)
  end.

Definition rule : string := Str.repeat "="%char 80.

Definition display_info (w : world) (clock : string)
  (check_number total_checks : Z) : M unit :=
  t <- parse_log_file w ;;
  u <- unpack6 t ;;
  let '(appid, speed, status, progress, downloaded, total) := u in
  emit INFO (String Str.newline rule) ;;;
  emit INFO ("Проверка " ++ Str.of_int check_number ++ "/"
             ++ Str.of_int total_checks ++ " - " ++ clock) ;;;
  emit INFO rule ;;;
  match appid with
  | Some a =>
      if truthy appid then
        cur <- get_current_appid ;;
        when (negb (match cur with Some c => String.eqb a c | None => false end))
          (name <- get_game_name_from_manifest w a ;;
           set_game_name name ;;;
           set_current_appid a) ;;;
        name <- get_game_name ;;
        emit INFO ("Игра: " ++ str_of_option name) ;;;
        emit INFO ("AppID: " ++ a) ;;;
        emit INFO ("Статус: " ++ status) ;;;
        when (match speed with Some _ => true | None => false end
              && String.eqb status DOWNLOADING)
          (emit INFO ("Скорость: " ++ format_speed speed)) ;;;
        match progress with
        | Some p =>
            emit INFO ("Прогресс: " ++ PyFloat.format_fixed 1 p ++ "%") ;;;
            d <- lift (format_size downloaded) ;;
            t <- lift (format_size total) ;;
            emit INFO ("Загружено: " ++ d ++ " / " ++ t)
        | None => ret tt
        end ;;;
        emit INFO ("Состояние: " ++ status)
      else emit INFO "Нет активных загрузок"
  | None => emit INFO "Нет активных загрузок"
  end.

(** [range(interval_seconds, 0, -10)] *)
Definition countdown (interval_seconds : Z) : list Z :=
  map (fun i => interval_seconds - 10 * Z.of_nat i)
      (seq 0 (Z.to_nat ((interval_seconds + 9) / 10))).

(** The body of the loop of [monitor] for one value of [check_number]:
    the [try] block and the handler of [Exception].  Sleeping leaves no
    trace in the model, and interruption from the keyboard is outside it. *)
Definition monitor_check (w : world) (clock : string)
  (check_number total_checks interval_seconds : Z) (s : monitor) : monitor :=
  let body :=
    display_info w clock check_number total_checks ;;;
    when (check_number <? total_checks)
      (emit WARNING (String Str.newline "Следующая проверка через "
                     ++ Str.of_int interval_seconds ++ " секунд...") ;;;
       for_each (countdown interval_seconds) (fun remaining =>
         when ((remaining mod 30 =? 0) || (remaining <=? 10))
           (emit WARNING (" Осталось: " ++ Str.of_int remaining ++ " сек"))))
  in
  match body s with
  | (Ok _, s') => s'
  | (Raise e, s') =>
      snd (emit ERROR (String Str.newline "Ошибка при проверке: "
                       ++ exn_message e) s')
  end.

(** The attributes as [__init__] leaves them. *)
Definition initial_monitor : monitor := Monitor None None [].

(* ================================================================== *)
(** * Notions used to state the properties                             *)
(* ================================================================== *)

(** The value of a decimal [float] literal of the source text. *)
Definition float_literal (tok : string) : pyfloat :=
  match PyFloat.of_string tok with
  | Ok x => x
  | Raise _ => NaN
  end.

(** The components of the returned tuple; the short tuple has none. *)
Definition appid_of (r : parse_result) : option string :=
  match r with Tuple6 a _ _ _ _ _ => a | NoneTriple => None end.

Definition speed_of (r : parse_result) : option pyfloat :=
  match r with Tuple6 _ sp _ _ _ _ => sp | NoneTriple => None end.

Definition status_of (r : parse_result) : option string :=
  match r with Tuple6 _ _ st _ _ _ => Some st | NoneTriple => None end.

Definition progress_of (r : parse_result) : option pyfloat :=
  match r with Tuple6 _ _ _ pr _ _ => pr | NoneTriple => None end.

Definition total_of (r : parse_result) : option Z :=
  match r with Tuple6 _ _ _ _ _ t => t | NoneTriple => None end.

(** The line window of a check: the lines [parse_log_file] scans. *)
Definition window (w : world) : list string :=
  match log_file w with
  | Readable lines => last_lines lines
  | _ => []
  end.

(** The records one call of [display_info] hands to the logger. *)
Definition report (w : world) (clock : string) (check_number total_checks : Z)
  (s : monitor) : list (level * string) :=
  skipn (List.length (records s))
        (records (snd (display_info w clock check_number total_checks s))).

(** The phase a phase-change line names, by the tests of the scan, and
    nothing for any other line. *)
Definition phase_of (line : string) : option string :=
  if Str.contains "App update changed" line then
    if Str.contains "Downloading" line then Some DOWNLOADING
    else if Str.contains "Paused" line then Some PAUSED
    else if Str.contains "Verifying" line then Some VERIFYING
    else if Str.contains "Preallocating" line then Some PREALLOCATING
    else if Str.contains "Staging" line then Some STAGING
    else None
  else None.

(** The first phase met in a list of lines. *)
Fixpoint first_phase (reversed_lines : list string) : option string :=
  match reversed_lines with
  | [] => None
  | line :: rest =>
      match phase_of line with
      | Some ph => Some ph
      | None => first_phase rest
      end
  end.

(** In the words of the specification: the phase on the phase-change line
    closest to the end of the window. *)
Definition most_recent_phase (lines : list string) : option string :=
  first_phase (rev lines).

(** What the scan leaves in [status] when it starts from [start] and no
    iteration returns: the phase of the last phase-change line it reads. *)
Definition overwritten_status (reversed_lines : list string) (start : string)
  : string :=
  fold_left (fun acc line =>
               match phase_of line with
               | Some ph => ph
               | None => acc
               end)
            reversed_lines start.



(** A manifest with the quoted layout of the name. *)
Definition portal_manifest : string :=
  String Str.dquote ("name" ++ String Str.dquote
    ("  " ++ String Str.dquote ("Portal" ++ String Str.dquote EmptyString))).

(** A record that shows the transfer rate. *)
Definition is_rate_record (r : level * string) : bool :=
  Str.starts_with "Скорость: " (snd r).

(** ** Predicates on the state of the monitor *)

(** [invariant I c]: running [c] from a state in [I] ends in a state in
    [I], whether [c] returns or raises. *)
Definition invariant {A : Type} (I : monitor -> Prop) (c : M A) : Prop :=
  forall s, I s -> I (snd (c s)).

(** The state with one more record. *)
Definition logged (s : monitor) (r : level * string) : monitor :=
  Monitor (current_appid s) (game_name s) (records s ++ [r]).

(** The two cached attributes are those of [s0]. *)
Definition same_cache (s0 s : monitor) : Prop :=
  current_appid s = current_appid s0 /\ game_name s = game_name s0.

(** The records are those of [old] followed by records that satisfy [P]. *)
Definition records_extend (P : level * string -> Prop)
  (old : list (level * string)) (s : monitor) : Prop :=
  exists new, records s = (old ++ new)%list /\ Forall P new.

(** What a rate record must be: the formatted rate of a result whose
    status is Downloading. *)
Definition rate_record_justified (w : world) (s : monitor)
  (rec : level * string) : Prop :=
  is_rate_record rec = true ->
  exists r x,
    fst (parse_log_file w s) = Ok r
    /\ speed_of r = Some x
    /\ status_of r = Some DOWNLOADING
    /\ rec = (INFO, "Скорость: " ++ format_speed (Some x)).

(** The records are those of [old] followed by records among which is [x]. *)
Definition has_record (x : level * string) (old : list (level * string))
  (s : monitor) : Prop :=
  exists new, records s = (old ++ new)%list /\ In x new.

(** The records are those of [old] followed by some others. *)
Definition extends (old : list (level * string)) (s : monitor) : Prop :=
  exists new, records s = (old ++ new)%list.

(** ** Captured groups *)

(** Every character of [s] is in the class [c]. *)
Fixpoint all_chars (c : ascii -> bool) (s : string) : bool :=
  match s with
  | EmptyString => true
  | String a s' => c a && all_chars c s'
  end.

(** What a group [(c+)] can capture: a non-empty string over [c]. *)
Definition captured_by (c : ascii -> bool) (g : string) : Prop :=
  g <> EmptyString /\ all_chars c g = true.

(** The classes of the groups of a pattern, in the order of the groups. *)
Fixpoint group_classes (p : Re.pattern) : list (ascii -> bool) :=
  match p with
  | [] => []
  | Re.Group c :: p' => c :: group_classes p'
  | _ :: p' => group_classes p'
  end.

(** ** The most recent identifier and rate of a window *)

(** The identifier on the first line of a list that has one. *)
Fixpoint first_appid (reversed_lines : list string) : option string :=
  match reversed_lines with
  | [] => None
  | line :: rest =>
      match Re.search appid_re line with
      | Some gs => Some (Re.group gs 1)
      | None => first_appid rest
      end
  end.


(** The six values [status] can take. *)
Definition is_status (s : string) : Prop :=
  In s [UNKNOWN; DOWNLOADING; PAUSED; VERIFYING; PREALLOCATING; STAGING].

Definition downloaded_of (r : parse_result) : option Z :=
  match r with Tuple6 _ _ _ _ d _ => d | NoneTriple => None end.

(** A float that is neither negative nor a NaN. *)
Definition nonnegative (x : pyfloat) : Prop :=
  match x with
  | Finite neg _ _ => neg = false
  | Inf neg => neg = false
  | NaN => False
  end.

(** ** Further notions on checks *)

(** The world [w] with other manifest files. *)
Definition with_manifest (w : world) (mf : string -> file string) : world :=
  World (log_file_path w) (log_file w) mf.

(** [returns c]: [c] raises from no state. *)
Definition returns {A : Type} (c : M A) : Prop :=
  forall s, exists a, fst (c s) = Ok a.

(** A record that shows the progress. *)
Definition is_progress_record (r : level * string) : bool :=
  Str.starts_with "Прогресс: " (snd r).

(** What a progress record must be: the formatted progress of the
    result. *)
Definition progress_record_justified (w : world) (s : monitor)
  (rec : level * string) : Prop :=
  is_progress_record rec = true ->
  exists r p,
    fst (parse_log_file w s) = Ok r
    /\ progress_of r = Some p
    /\ rec = (INFO, "Прогресс: " ++ PyFloat.format_fixed 1 p ++ "%").

(** The arguments of [time.sleep] in the wait between two checks:
    [10 if remaining > 10 else remaining] for each [remaining]. *)
Definition sleep_segments (interval_seconds : Z) : list Z :=
  map (fun remaining => if 10 <? remaining then 10 else remaining)
      (countdown interval_seconds).



(* ================================================================== *)
(** * The scan, line by line                                           *)
(* ================================================================== *)

Section ScanLine.

Variables (st : locals) (line : string).

Lemma find_appid_keeps : 
  download_speed (find_appid st line) = download_speed st
  /\ status (find_appid st line) = status st.
Proof.
  unfold find_appid.
  destruct (appid st); [now split|].
  destruct (Re.search appid_re line); now split.
Qed.

Lemma find_appid_none :
  appid st = None -> Re.search appid_re line = None ->
  find_appid st line = st.
Proof.
  intros Ha Hs. unfold find_appid. now rewrite Ha, Hs.
Qed.

Lemma find_speed_keeps st' :
  find_speed st line = Ok st' ->
  appid st' = appid st /\ status st' = status st.
Proof.
  unfold find_speed.
  destruct (download_speed st).
  - intros [= <-]. now split.
  - destruct (Re.search speed_re line) as [gs|].
    + destruct (PyFloat.of_string (Re.group gs 1)); simpl; [|discriminate].
      intros [= <-]. now split.
    + intros [= <-]. now split.
Qed.

Lemma find_status_keeps :
  appid (find_status st line) = appid st
  /\ download_speed (find_status st line) = download_speed st.
Proof.
  unfold find_status.
  repeat match goal with
         | |- context [if ?b then _ else _] => destruct b
         end; now split.
Qed.

Lemma find_status_phase :
  find_status st line =
  match phase_of line with
  | Some ph => Locals (appid st) (download_speed st) ph
  | None => st
  end.
Proof.
  unfold find_status, phase_of.
  repeat match goal with
         | |- context [if ?b then _ else _] => destruct b
         end; reflexivity.
Qed.

(** The only [return] of the loop: an [update started] line, an
    identifier in hand, a size pair and a positive total. *)
Lemma find_size_return r :
  find_size st line = Ok (Return r) ->
  Str.contains "update started" line = true
  /\ truthy (appid st) = true
  /\ exists gs d t q,
      Re.search size_re line = Some gs
      /\ PyInt.of_string (Re.group gs 1) = Ok d
      /\ PyInt.of_string (Re.group gs 2) = Ok t
      /\ 0 < t
      /\ PyFloat.int_truediv d t = Ok q
      /\ r = Tuple6 (appid st) (download_speed st) (status st)
               (Some (PyFloat.mul_int q 100)) (Some d) (Some t).
Proof.
  unfold find_size.
  destruct (Str.contains "update started" line); [|discriminate].
  destruct (truthy (appid st)); [|discriminate]. simpl.
  destruct (Re.search size_re line) as [gs|]; [|discriminate].
  destruct (PyInt.of_string (Re.group gs 1)) as [d|] eqn:Hd; [|discriminate].
  destruct (PyInt.of_string (Re.group gs 2)) as [t|] eqn:Ht; [|discriminate].
  simpl. destruct (Z.ltb_spec 0 t); [|discriminate].
  destruct (PyFloat.int_truediv d t) as [q|] eqn:Hq; [|discriminate].
  simpl. intros [= <-].
  split; [reflexivity|]. split; [reflexivity|].
  exists gs, d, t, q. repeat split; auto.
Qed.

Lemma find_size_next st' :
  find_size st line = Ok (Next st') -> st' = st.
Proof.
  unfold find_size.
  destruct (Str.contains "update started" line && truthy (appid st));
    [|now intros [= <-]].
  destruct (Re.search size_re line) as [gs|]; [|now intros [= <-]].
  destruct (PyInt.of_string (Re.group gs 1)) as [d|]; [|discriminate].
  destruct (PyInt.of_string (Re.group gs 2)) as [t|]; [|discriminate].
  simpl. destruct (0 <? t); [|now intros [= <-]].
  destruct (PyFloat.int_truediv d t); discriminate.
Qed.


End ScanLine.

(** What a returning iteration hands back. *)
Lemma scan_line_return st line r :
  scan_line st line = Ok (Return r) ->
  truthy (appid_of r) = true
  /\ (appid st = None -> Re.search appid_re line <> None)
  /\ exists gs p d t,
      Re.search size_re line = Some gs
      /\ PyInt.of_string (Re.group gs 2) = Ok t
      /\ 0 < t
      /\ r = Tuple6 (appid_of r) (speed_of r) (match status_of r with Some x => x | None => UNKNOWN end)
               (Some p) (Some d) (Some t).
Proof.
  unfold scan_line.
  destruct (find_speed (find_appid st line) line) as [st1|] eqn:H1; [|discriminate].
  simpl. intros H.
  apply find_size_return in H.
  destruct H as (_ & Ht & gs & d & t & q & Hs & _ & Ht2 & Hpos & _ & ->).
  simpl. split; [exact Ht|]. split.
  - intros Hnone Hre.
    apply find_speed_keeps in H1. destruct H1 as [Ha _].
    destruct (find_status_keeps st1 line) as [Ha2 _].
    rewrite Ha2, Ha, (find_appid_none st line Hnone Hre), Hnone in Ht.
    discriminate.
  - exists gs, (PyFloat.mul_int q 100), d, t. repeat split; auto.
Qed.

(** What a continuing iteration leaves in the local variables. *)
Lemma scan_line_next st line st' :
  scan_line st line = Ok (Next st') ->
  exists st1,
    find_speed (find_appid st line) line = Ok st1
    /\ st' = find_status st1 line.
Proof.
  unfold scan_line.
  destruct (find_speed (find_appid st line) line) as [st1|]; [|discriminate].
  simpl. intros H. apply find_size_next in H. now exists st1.
Qed.


(* ================================================================== *)
(** * The scan of a whole window                                       *)
(* ================================================================== *)





(** The status of a scan that runs to the end is the phase of the last
    phase-change line read, that is of the oldest one in the window. *)
Lemma scan_status ls : forall st r,
  scan ls st = Ok r -> progress_of r = None ->
  status_of r = Some (overwritten_status ls (status st)).
Proof.
  induction ls as [|line rest IH]; intros st r; simpl.
  - now intros [= <-] _.
  - destruct (scan_line st line) as [[st'|r']|] eqn:Hl; simpl; [| |discriminate].
    + intros Hs Hp. rewrite (IH _ _ Hs Hp). f_equal. f_equal.
      destruct (scan_line_next _ _ _ Hl) as (st1 & H1 & ->).
      rewrite find_status_phase.
      destruct (find_speed_keeps _ _ _ H1) as [_ Hst].
      destruct (find_appid_keeps st line) as [_ Hst'].
      destruct (phase_of line); simpl; congruence.
    + intros [= <-] Hp.
      destruct (scan_line_return _ _ _ Hl) as (_ & _ & gs & p & d & t & _ & _ & _ & Hr).
      rewrite Hr in Hp. discriminate.
Qed.


(* ================================================================== *)
(** * Properties of the scan                                           *)
(* ================================================================== *)

(** C1 (status is the phase of the most recent phase-change line).  The
    scan does not do this: [status] has no guard, so every older
    phase-change line overwrites it.  On the window below the most recent
    phase-change line says Downloading and the scan answers Paused. *)
Theorem status_overwritten_by_older_line :
  let w := ["App update changed : Paused";
            "App update changed : Downloading"] in
  most_recent_phase w = Some DOWNLOADING
  /\ parse_lines w = Ok (Tuple6 None None PAUSED None None None)
  /\ PAUSED <> DOWNLOADING.
Proof.
  cbv zeta. split; [reflexivity|]. split; [reflexivity|]. discriminate.
Qed.




(** C4 (a malformed numeric token is skipped and the rest of the window is
    parsed).  The scan does not do this: the rate pattern accepts tokens with
    several dots, [float] raises on them and nothing catches it inside
    [parse_log_file].  The window below parses without its last line and
    raises with it. *)
Theorem malformed_rate_token_aborts_parse path mf clock n k interval s :
  let good := ["AppID 42"; "App update changed : Downloading"] in
  let bad := "Current download rate: 1.2.3 Mbps" in
  let e := ValueError "could not convert string to float: '1.2.3'" in
  let w := World path (Readable (good ++ [bad])%list) mf in
  Re.search speed_re bad = Some ["1.2.3"]
  /\ parse_lines good = Ok (Tuple6 (Some "42") None DOWNLOADING None None None)
  /\ parse_lines (good ++ [bad]) = Raise e
  /\ parse_log_file w s = (Raise e, s)
  /\ display_info w clock n k s = (Raise e, s)
  /\ monitor_check w clock n k interval s
     = logged s (ERROR, String Str.newline "Ошибка при проверке: "
                        ++ exn_message e).
Proof.
  cbv zeta. repeat split; reflexivity.
Qed.

(** [parse_log_file] on a readable log is the scan of its window, and on a
    missing or unreadable log the short tuple. *)
Lemma parse_log_file_result w s :
  fst (parse_log_file w s) =
  match log_file w with
  | Readable _ => parse_lines (window w)
  | _ => Ok NoneTriple
  end.
Proof.
  unfold parse_log_file, window. destruct (log_file w); reflexivity.
Qed.



(* ================================================================== *)
(** * Properties of the formatters                                     *)
(* ================================================================== *)

(** Rounding succeeds whenever the quotient is below [2^1023]. *)
Lemma nearest_in_range p q :
  Z.log2 p - Z.log2 q <= 1022 ->
  exists m e, PyFloat.nearest p q = Some (m, e).
Proof.
  intros Hk. unfold PyFloat.nearest.
  destruct (p =? 0); [now exists 0, 0|].
  assert (Hf : PyFloat.floor_log2 p q <= 1022).
  { unfold PyFloat.floor_log2.
    destruct (q * 2 ^ Z.max (Z.log2 p - Z.log2 q) 0
              <=? p * 2 ^ Z.max (- (Z.log2 p - Z.log2 q)) 0); lia. }
  set (e := Z.max (PyFloat.floor_log2 p q - 52) (-1074)).
  assert (He : e <= 970) by (unfold e; lia).
  set (m := PyFloat.round_half_even (p * 2 ^ Z.max (- e) 0) (q * 2 ^ Z.max e 0)).
  destruct (m =? 2 ^ 53).
  - destruct (Z.ltb_spec 971 (e + 1)); [lia|]. now exists (2 ^ 52), (e + 1).
  - destruct (Z.ltb_spec 971 e); [lia|]. now exists m, e.
Qed.

Lemma int_truediv_in_range a b :
  b <> 0 -> Z.log2 (Z.abs a) - Z.log2 (Z.abs b) <= 1022 ->
  exists x, PyFloat.int_truediv a b = Ok x.
Proof.
  intros Hb Hk. unfold PyFloat.int_truediv.
  destruct (Z.eqb_spec b 0); [contradiction|].
  destruct (nearest_in_range _ _ Hk) as (m & e & ->).
  eexists. reflexivity.
Qed.



(* ================================================================== *)
(** * Invariants of computations in [M]                                *)
(* ================================================================== *)

Section InvariantRules.

Variable I : monitor -> Prop.

Lemma invariant_ret {A} (a : A) : invariant I (ret a).
Proof. intros s Hs. exact Hs. Qed.

Lemma invariant_lift {A} (o : outcome A) : invariant I (lift o).
Proof. intros s Hs. exact Hs. Qed.

Lemma invariant_get_current_appid : invariant I get_current_appid.
Proof. intros s Hs. exact Hs. Qed.

Lemma invariant_get_game_name : invariant I get_game_name.
Proof. intros s Hs. exact Hs. Qed.

Lemma invariant_emit l msg :
  (forall s, I s -> I (logged s (l, msg))) -> invariant I (emit l msg).
Proof. intros H s Hs. apply H, Hs. Qed.

Lemma invariant_set_game_name name :
  (forall s, I s -> I (Monitor (current_appid s) (Some name) (records s))) ->
  invariant I (set_game_name name).
Proof. intros H s Hs. apply H, Hs. Qed.

Lemma invariant_set_current_appid a :
  (forall s, I s -> I (Monitor (Some a) (game_name s) (records s))) ->
  invariant I (set_current_appid a).
Proof. intros H s Hs. apply H, Hs. Qed.

Lemma invariant_bind {A B} (c : M A) (k : A -> M B) :
  invariant I c -> (forall a, invariant I (k a)) ->
  invariant I (bind c k).
Proof.
  intros Hc Hk s Hs. unfold bind.
  specialize (Hc s Hs). destruct (c s) as [[a|e] s1]; simpl in *.
  - now apply Hk.
  - exact Hc.
Qed.

Lemma invariant_bind_ret {A B} (a : A) (k : A -> M B) :
  invariant I (k a) -> invariant I (bind (ret a) k).
Proof. intros H s Hs. unfold bind. simpl. now apply H. Qed.

Lemma invariant_bind_raise {A B} (e : exn) (k : A -> M B) :
  invariant I (bind (lift (Raise e)) k).
Proof. intros s Hs. exact Hs. Qed.

(** The continuation may use the result of [c] when that result does
    not depend on the state. *)
Lemma invariant_bind_result {A B} (c : M A) (k : A -> M B) (o : outcome A) :
  (forall s, fst (c s) = o) ->
  invariant I c -> (forall a, o = Ok a -> invariant I (k a)) ->
  invariant I (bind c k).
Proof.
  intros Ho Hc Hk s Hs. unfold bind.
  specialize (Hc s Hs). specialize (Ho s).
  destruct (c s) as [[a|e] s1]; simpl in *.
  - now apply (Hk a).
  - exact Hc.
Qed.

(** The continuation of a read of [current_appid] may use that the value
    comes from a state in [I]. *)
Lemma invariant_bind_current_appid {B} (k : option string -> M B) :
  (forall s0, I s0 -> invariant I (k (current_appid s0))) ->
  invariant I (bind get_current_appid k).
Proof. intros Hk s Hs. unfold bind. simpl. now apply (Hk s). Qed.

Lemma invariant_when b (c : M unit) :
  (b = true -> invariant I c) -> invariant I (when b c).
Proof.
  intros H. unfold when. destruct b; [now apply H|apply invariant_ret].
Qed.


End InvariantRules.

(** One step of the proof of an invariant, following the shape of the
    computation; the side conditions of [emit] and of the writes to the
    attributes are left to the caller. *)
Ltac invariant_step :=
  match goal with
  | |- invariant _ (ret _) => apply invariant_ret
  | |- invariant _ (lift _) => apply invariant_lift
  | |- invariant _ get_game_name => apply invariant_get_game_name
  | |- invariant _ get_current_appid => apply invariant_get_current_appid
  | |- invariant _ (when _ _) => apply invariant_when; intros ?
  | |- invariant _ (bind (ret _) _) => apply invariant_bind_ret
  | |- invariant _ (bind _ _) => apply invariant_bind; [|intros ?]
  | |- invariant _ (emit _ _) => apply invariant_emit
  | |- invariant _ (set_game_name _) => apply invariant_set_game_name
  | |- invariant _ (set_current_appid _) => apply invariant_set_current_appid
  | |- invariant _ (match ?x with _ => _ end) => destruct x eqn:?
  end.

(** ** The cache is untouched by everything but the two writes *)

Lemma same_cache_logged s0 s r : same_cache s0 s -> same_cache s0 (logged s r).
Proof. intros H. exact H. Qed.

Lemma same_cache_refl s : same_cache s s.
Proof. now split. Qed.

Lemma parse_log_file_keeps_cache s0 w :
  invariant (same_cache s0) (parse_log_file w).
Proof.
  unfold parse_log_file.
  repeat (invariant_step; try (intros; now apply same_cache_logged)).
Qed.


(** ** Every new record satisfies a given property *)

Lemma records_extend_refl P s : records_extend P (records s) s.
Proof. exists []. split; [now rewrite app_nil_r|constructor]. Qed.

Lemma records_extend_logged P old s r :
  P r -> records_extend P old s -> records_extend P old (logged s r).
Proof.
  intros Hr (new & Hn & Hall). exists (new ++ [r])%list. split.
  - simpl. now rewrite Hn, app_assoc.
  - apply Forall_app. split; [exact Hall|now constructor].
Qed.

Lemma records_extend_attributes P old s a b :
  records_extend P old s ->
  records_extend P old (Monitor a b (records s)).
Proof. intros H. exact H. Qed.

Lemma report_of_extension P w clock n k s :
  records_extend P (records s) (snd (display_info w clock n k s)) ->
  Forall P (report w clock n k s).
Proof.
  intros (new & Hn & Hall). unfold report. rewrite Hn.
  rewrite skipn_app, skipn_all, Nat.sub_diag. exact Hall.
Qed.

Lemma parse_log_file_result_fixed w s s0 :
  fst (parse_log_file w s) = fst (parse_log_file w s0).
Proof. now rewrite !parse_log_file_result. Qed.

Lemma truthy_some a : truthy (Some a) = true -> a <> EmptyString.
Proof. destruct a; [discriminate|discriminate]. Qed.

(** [display_info] leaves the cache alone unless the window names an
    identifier other than the cached one. *)
Lemma display_info_keeps_cache w clock n k s0 :
  (forall r a, fst (parse_log_file w s0) = Ok r -> appid_of r = Some a ->
               a <> EmptyString -> current_appid s0 = Some a) ->
  invariant (same_cache s0) (display_info w clock n k).
Proof.
  intros Hcached. unfold display_info.
  apply invariant_bind_result with (o := fst (parse_log_file w s0)).
  { intros s. apply parse_log_file_result_fixed. }
  { apply parse_log_file_keeps_cache. }
  intros t Ht. destruct t as [|a sp st pr d t]; simpl unpack6.
  { apply invariant_bind_raise. }
  apply invariant_bind_ret. cbv beta iota.
  do 3 (apply invariant_bind; [apply invariant_emit; intros; assumption|intros _]).
  destruct a as [a|]; [|apply invariant_emit; intros; assumption].
  destruct (truthy (Some a)) eqn:Htruthy;
    [|apply invariant_emit; intros; assumption].
  apply invariant_bind_current_appid. intros s1 [Hcur _].
  rewrite Hcur, (Hcached _ a Ht eq_refl (truthy_some _ Htruthy)).
  rewrite String.eqb_refl. simpl negb.
  repeat (invariant_step; try discriminate;
          try (intros; now apply same_cache_logged)).
Qed.

Lemma manifest_lookup_result w a s s0 :
  fst (get_game_name_from_manifest w a s) = fst (get_game_name_from_manifest w a s0).
Proof.
  unfold get_game_name_from_manifest.
  destruct (manifest w a); try reflexivity.
  destruct (Re.search quoted_name_re content); try reflexivity.
  destruct (Re.search bare_name_re content); reflexivity.
Qed.

(** The state after [c ;; k], read off the result and the state of [c]. *)
Lemma snd_bind {A B} (c : M A) (k : A -> M B) (s : monitor) (Q : monitor -> Prop) :
  match fst (c s) with
  | Ok a => Q (snd (k a (snd (c s))))
  | Raise _ => Q (snd (c s))
  end ->
  Q (snd (bind c k s)).
Proof.
  unfold bind. destruct (c s) as [[a|e] s1]; simpl; auto.
Qed.

(** The lookup followed by the two writes. *)
Lemma resolve_and_store w a name s :
  fst (get_game_name_from_manifest w a s) = Ok name ->
  exists recs,
    bind (get_game_name_from_manifest w a)
         (fun name0 => bind (set_game_name name0) (fun _ => set_current_appid a)) s
    = (Ok tt, Monitor (Some a) (Some name) recs).
Proof.
  intros H. unfold bind.
  destruct (get_game_name_from_manifest w a s) as [o s1]. simpl in H. subst o.
  simpl. eexists. reflexivity.
Qed.

(** When the window names an identifier other than the cached one,
    [display_info] stores the identifier and whatever the lookup returns. *)
Lemma display_info_resolves w clock n k s r a name :
  fst (parse_log_file w s) = Ok r -> appid_of r = Some a -> a <> EmptyString ->
  current_appid s <> Some a ->
  fst (get_game_name_from_manifest w a s) = Ok name ->
  current_appid (snd (display_info w clock n k s)) = Some a
  /\ game_name (snd (display_info w clock n k s)) = Some name.
Proof.
  intros Hp Ha Hne Hcur Hname.
  set (J := fun s' : monitor => current_appid s' = Some a /\ game_name s' = Some name).
  change (J (snd (display_info w clock n k s))).
  destruct r as [|a' sp st pr d t]; [discriminate|]. simpl in Ha. subst a'.
  pose proof (parse_log_file_keeps_cache s w s (same_cache_refl s)) as [Hs1 _].
  unfold display_info.
  apply snd_bind. rewrite Hp.
  set (s1 := snd (parse_log_file w s)) in *.
  apply snd_bind. cbn [unpack6 ret fst snd].
  do 3 (apply snd_bind; cbn [emit fst snd]).
  replace (truthy (Some a)) with true by (destruct a; [congruence|reflexivity]).
  apply snd_bind. cbn [get_current_appid fst snd current_appid].
  rewrite Hs1.
  replace (negb match current_appid s with
                | Some c => (a =? c)%string
                | None => false
                end) with true.
  2:{ destruct (current_appid s) as [c|]; [|reflexivity].
      destruct (String.eqb_spec a c); [congruence|reflexivity]. }
  apply snd_bind. unfold when.
  match goal with
  | |- context [bind (get_game_name_from_manifest w a) _ ?s2] =>
      destruct (resolve_and_store w a name s2) as (recs & ->);
      [now rewrite (manifest_lookup_result w a s2 s)|]
  end.
  cbn [fst snd].
  match goal with
  | |- J (snd (?c ?s3)) =>
      cut (invariant J c); [intros Hinv; apply Hinv; now split|]
  end.
  repeat (invariant_step; try (intros ? HJ; exact HJ)).
Qed.

(* ================================================================== *)
(** * Properties of [display_info]                                     *)
(* ================================================================== *)

Ltac not_a_rate_record :=
  let H := fresh in
  intros H; lazy in H; discriminate H.

(** Side conditions of the rules on a record that is not a rate record,
    and on a write to an attribute. *)
Ltac records_side :=
  lazymatch goal with
  | |- forall s, _ -> records_extend _ _ (logged s _) =>
      intros; apply records_extend_logged; [not_a_rate_record|assumption]
  | |- forall s, _ -> records_extend _ _ (Monitor _ _ (records s)) =>
      intros; apply records_extend_attributes; assumption
  end.

Lemma manifest_lookup_rate_records w s0 a :
  invariant (records_extend (rate_record_justified w s0) (records s0))
            (get_game_name_from_manifest w a).
Proof.
  unfold get_game_name_from_manifest.
  repeat (invariant_step; try records_side).
Qed.

Lemma display_info_rate_records w clock n k s0 :
  invariant (records_extend (rate_record_justified w s0) (records s0))
            (display_info w clock n k).
Proof.
  unfold display_info.
  apply invariant_bind_result with (o := fst (parse_log_file w s0)).
  { intros s. apply parse_log_file_result_fixed. }
  { unfold parse_log_file. repeat (invariant_step; try records_side). }
  intros t Ht. destruct t as [|a sp st pr d t]; simpl unpack6.
  { apply invariant_bind_raise. }
  apply invariant_bind_ret. cbv beta iota.
  repeat (first [apply manifest_lookup_rate_records|invariant_step];
          try records_side).
  intros s' Hs'. apply records_extend_logged; [|exact Hs']. intros _.
  destruct sp as [x|]; [|discriminate].
  match goal with
  | Hc : _ && _ = true |- _ =>
      apply andb_true_iff in Hc; destruct Hc as [_ Hc];
      apply String.eqb_eq in Hc; subst st
  end.
  eexists _, x. split; [exact Ht|]. repeat split.
Qed.

(** C7.  Every rate record of a report is the formatted rate of a parse
    result whose status is Downloading; so when the status is anything else
    the report has no rate record, whatever rate the parser resolved. *)
Theorem rate_shown_only_when_downloading w clock n k s :
  (forall rec,
      In rec (report w clock n k s) -> is_rate_record rec = true ->
      exists r x,
        fst (parse_log_file w s) = Ok r
        /\ speed_of r = Some x
        /\ status_of r = Some DOWNLOADING
        /\ rec = (INFO, "Скорость: " ++ format_speed (Some x)))
  /\ (forall r,
         fst (parse_log_file w s) = Ok r ->
         status_of r <> Some DOWNLOADING ->
         forall rec, In rec (report w clock n k s) -> is_rate_record rec = false).
Proof.
  assert (Hall : Forall (rate_record_justified w s) (report w clock n k s)).
  { apply report_of_extension.
    apply display_info_rate_records, records_extend_refl. }
  rewrite Forall_forall in Hall. split.
  - intros rec Hin. exact (Hall rec Hin).
  - intros r Hr Hst rec Hin.
    destruct (is_rate_record rec) eqn:Hrate; [|reflexivity].
    destruct (Hall rec Hin Hrate) as (r' & x & Hr' & _ & Hst' & _).
    rewrite Hr in Hr'. injection Hr' as <-. contradiction.
Qed.

Lemma rate_shown_only_when_downloading_witness :
  (exists r x,
      fst (parse_log_file
             (World "content_log.txt"
                (Readable ["AppID 42";
                           "App update changed : Downloading";
                           "Current download rate: 12.50 Mbps"])
                (fun _ => Absent))
             initial_monitor) = Ok r
      /\ speed_of r = Some x
      /\ status_of r = Some DOWNLOADING
      /\ (INFO, "Скорость: 12.50 Mbps")
         = (INFO, "Скорость: " ++ format_speed (Some x)))
  /\ is_rate_record (INFO, "Статус: на паузе") = false.
Proof.
  split.
  - refine (proj1 (rate_shown_only_when_downloading
              (World "content_log.txt"
                 (Readable ["AppID 42";
                            "App update changed : Downloading";
                            "Current download rate: 12.50 Mbps"])
                 (fun _ => Absent))
              "12:00:00" 1 5 initial_monitor)
              (INFO, "Скорость: 12.50 Mbps") _ eq_refl).
    vm_compute. auto 10.
  - refine (proj2 (rate_shown_only_when_downloading
              (World "content_log.txt"
                 (Readable ["AppID 42";
                            "Current download rate: 12.50 Mbps";
                            "App update changed : Paused"])
                 (fun _ => Absent))
              "12:00:00" 1 5 initial_monitor)
              (Tuple6 (Some "42") (Some (Finite false 25 (-1))) PAUSED
                 None None None)
              eq_refl _ (INFO, "Статус: на паузе") _).
    + discriminate.
    + vm_compute. auto 10.
Defined.

(** C10.  A check whose window gives no identifier leaves the last-known
    identifier and the cached name as they were; and whenever a check does
    change either of them, the window gave a present identifier different
    from the cached one. *)
Theorem cache_kept_without_identifier w clock n k s :
  let s' := snd (display_info w clock n k s) in
  (forall r,
      fst (parse_log_file w s) = Ok r -> truthy (appid_of r) = false ->
      current_appid s' = current_appid s /\ game_name s' = game_name s)
  /\ (current_appid s' <> current_appid s \/ game_name s' <> game_name s ->
      exists r a,
        fst (parse_log_file w s) = Ok r
        /\ appid_of r = Some a /\ a <> EmptyString /\ current_appid s <> Some a).
Proof.
  cbv zeta.
  assert (Hkeep :
    (forall r a, fst (parse_log_file w s) = Ok r -> appid_of r = Some a ->
                 a <> EmptyString -> current_appid s = Some a) ->
    current_appid (snd (display_info w clock n k s)) = current_appid s
    /\ game_name (snd (display_info w clock n k s)) = game_name s).
  { intros H. apply (display_info_keeps_cache w clock n k s H s).
    apply same_cache_refl. }
  split.
  - intros r Hr Hnone. apply Hkeep. intros r0 a Hr0 Ha Hne.
    rewrite Hr in Hr0. injection Hr0 as <-. rewrite Ha in Hnone.
    destruct a; [congruence|discriminate].
  - intros Hchanged.
    assert (Hdec : forall x y : option string, {x = y} + {x <> y})
      by (decide equality; apply string_dec).
    destruct (fst (parse_log_file w s)) as [r|e] eqn:Hr.
    + destruct (appid_of r) as [a|] eqn:Ha.
      * destruct (string_dec a EmptyString) as [Hempty|Hne].
        -- destruct Hkeep as [H1 H2]; [|destruct Hchanged; contradiction].
           intros r0 a0 [= <-] Ha0 Hne0. congruence.
        -- destruct (Hdec (current_appid s) (Some a)) as [Hsame|Hdiff].
           ++ destruct Hkeep as [H1 H2]; [|destruct Hchanged; contradiction].
              intros r0 a0 [= <-] Ha0 _. congruence.
           ++ exists r, a. auto.
      * destruct Hkeep as [H1 H2]; [|destruct Hchanged; contradiction].
        intros r0 a0 [= <-] Ha0 _. congruence.
    + destruct Hkeep as [H1 H2]; [|destruct Hchanged; contradiction].
      intros r0 a0 [=].
Qed.

Lemma cache_kept_without_identifier_witness :
  (current_appid
     (snd (display_info (World "content_log.txt" (Readable []) (fun _ => Absent))
             "12:00:00" 2 5 (Monitor (Some "42") (Some "Portal") [])))
   = Some "42"
   /\ game_name
        (snd (display_info (World "content_log.txt" (Readable []) (fun _ => Absent))
                "12:00:00" 2 5 (Monitor (Some "42") (Some "Portal") [])))
      = Some "Portal")
  /\ exists r a,
      fst (parse_log_file
             (World "content_log.txt" (Readable ["AppID 7"]) (fun _ => Absent))
             (Monitor (Some "42") (Some "Portal") [])) = Ok r
      /\ appid_of r = Some a /\ a <> EmptyString /\ Some "42" <> Some a.
Proof.
  split.
  - refine (proj1 (cache_kept_without_identifier
             (World "content_log.txt" (Readable []) (fun _ => Absent))
             "12:00:00" 2 5 (Monitor (Some "42") (Some "Portal") []))
             (Tuple6 None None UNKNOWN None None None) eq_refl eq_refl).
  - refine (proj2 (cache_kept_without_identifier
             (World "content_log.txt" (Readable ["AppID 7"]) (fun _ => Absent))
             "12:00:00" 2 5 (Monitor (Some "42") (Some "Portal") [])) _).
    left. vm_compute. discriminate.
Defined.





(** C3 (a missing or unreadable log gives the report of no active
    session and no exception leaves the check).  The code does not do
    this: on both early exits [parse_log_file] returns three values where
    [display_info] unpacks six, so [display_info] raises before it logs
    anything and the loop of [monitor] logs the error in place of a
    report.  An empty log does give the report. *)
Theorem missing_log_makes_display_info_raise path mf clock n k interval s :
  let e := ValueError "not enough values to unpack (expected 6, got 3)" in
  let note := (ERROR, String Str.newline "Ошибка при проверке: " ++ exn_message e) in
  display_info (World path Absent mf) clock n k s
  = (Raise e, logged s (WARNING, "Файл логов не найден: " ++ path))
  /\ (forall err,
         display_info (World path (Unreadable err) mf) clock n k s
         = (Raise e, logged s (ERROR, "Ошибка чтения лог-файла: " ++ err)))
  /\ monitor_check (World path Absent mf) clock n k interval s
     = logged (logged s (WARNING, "Файл логов не найден: " ++ path)) note
  /\ report (World path Absent mf) clock n k s
     = [(WARNING, "Файл логов не найден: " ++ path)]
  /\ report (World path (Readable []) mf) clock n k s
     = [(INFO, String Str.newline rule);
        (INFO, "Проверка " ++ Str.of_int n ++ "/" ++ Str.of_int k ++ " - " ++ clock);
        (INFO, rule);
        (INFO, "Нет активных загрузок")].
Proof.
  cbv zeta. repeat split; try reflexivity.
  - unfold report. cbn [display_info parse_log_file log_file bind emit ret
                        unpack6 lift fst snd records log_file_path].
    now rewrite skipn_app, skipn_all, Nat.sub_diag.
  - unfold report, display_info, parse_log_file, bind. simpl.
    rewrite <- !app_assoc.
    now rewrite skipn_app, skipn_all, Nat.sub_diag.
Qed.

(** ** A given record is among the new ones *)

Lemma has_record_logged x old s r :
  has_record x old s -> has_record x old (logged s r).
Proof.
  intros (new & Hn & Hin). exists (new ++ [r])%list. split.
  - simpl. now rewrite Hn, app_assoc.
  - apply in_or_app. now left.
Qed.

Lemma has_record_now x old s :
  extends old s -> has_record x old (logged s x).
Proof.
  intros (new & Hn). exists (new ++ [x])%list. split.
  - simpl. now rewrite Hn, app_assoc.
  - apply in_or_app. right. now left.
Qed.

Lemma extends_logged old s r : extends old s -> extends old (logged s r).
Proof.
  intros (new & Hn). exists (new ++ [r])%list. simpl. now rewrite Hn, app_assoc.
Qed.

Lemma extends_refl s : extends (records s) s.
Proof. exists []. now rewrite app_nil_r. Qed.

Lemma report_has_record x w clock n k s :
  has_record x (records s) (snd (display_info w clock n k s)) ->
  In x (report w clock n k s).
Proof.
  intros (new & Hn & Hin). unfold report. rewrite Hn.
  now rewrite skipn_app, skipn_all, Nat.sub_diag.
Qed.

(** The lookup of the name, when it happens, returns and only adds
    records. *)
Lemma lookup_block_returns old b w a s :
  extends old s ->
  let block := when b (bind (get_game_name_from_manifest w a)
                         (fun name => bind (set_game_name name)
                                        (fun _ => set_current_appid a))) in
  fst (block s) = Ok tt /\ extends old (snd (block s)).
Proof.
  intros Hs. cbv zeta. unfold when, get_game_name_from_manifest.
  destruct b; [|now split].
  destruct (manifest w a) as [|err|content].
  - now split.
  - split; [reflexivity|]. now apply (extends_logged old s).
  - destruct (Re.search quoted_name_re content); [now split|].
    destruct (Re.search bare_name_re content); now split.
Qed.

Lemma invariant_run {A} (I : monitor -> Prop) (c : M A) s :
  invariant I c -> I s -> I (snd (c s)).
Proof. intros H. apply H. Qed.

Lemma snd_bind_invariant {A B} (c : M A) (k : A -> M B) s (Q : monitor -> Prop) :
  Q (snd (c s)) -> (forall a, invariant Q (k a)) -> Q (snd (bind c k s)).
Proof.
  intros Hc Hk. apply snd_bind.
  destruct (fst (c s)); [now apply Hk|exact Hc].
Qed.

Lemma snd_bind_emit {B} l msg (k : unit -> M B) s (Q : monitor -> Prop) :
  Q (snd (k tt (logged s (l, msg)))) -> Q (snd (bind (emit l msg) k s)).
Proof. intros H. exact H. Qed.

Lemma end_to_end_report path mf clock n k s x :
  let w := World path
             (Readable ["update started : download 1000/2000";
                        "AppID 42";
                        "App update changed : Downloading";
                        "Current download rate: 12.50 Mbps"]) mf in
  x = (INFO, "Скорость: 12.50 Mbps") \/ x = (INFO, "Прогресс: 50.0%") ->
  has_record x (records s) (snd (display_info w clock n k s)).
Proof.
  cbv zeta. set (w := World path _ mf). intros Hx.
  assert (Hparse : parse_log_file w s
                   = (Ok (Tuple6 (Some "42") (Some (Finite false 25 (-1)))
                            DOWNLOADING (Some (Finite false 25 1))
                            (Some 1000) (Some 2000)), s))
    by reflexivity.
  unfold display_info.
  apply snd_bind. rewrite Hparse. cbn [fst snd].
  apply snd_bind. cbn [unpack6 ret fst snd].
  do 3 apply snd_bind_emit. cbn [truthy].
  apply snd_bind. cbn [get_current_appid fst snd].
  apply snd_bind.
  match goal with
  | |- context [when ?b _ ?s2] =>
      destruct (lookup_block_returns (records s) b w "42" s2) as [-> Hext];
      [do 3 apply extends_logged; apply extends_refl|]
  end.
  match goal with
  | H : extends _ ?t |- _ => set (s3 := t) in *; clearbody s3
  end.
  apply snd_bind. cbn [get_game_name fst snd].
  do 3 apply snd_bind_emit.
  rewrite String.eqb_refl. cbn [andb when].
  apply snd_bind_emit.
  change (format_speed (Some (Finite false 25 (-1)))) with "12.50 Mbps".
  destruct Hx as [-> | ->].
  - apply invariant_run.
    + repeat (invariant_step; try (intros; now apply has_record_logged)).
    + apply has_record_now. do 3 apply extends_logged. exact Hext.
  - apply snd_bind_invariant.
    + apply snd_bind_emit.
      change (PyFloat.format_fixed 1 (Finite false 25 1)) with "50.0".
      apply invariant_run.
      * repeat (invariant_step; try (intros; now apply has_record_logged)).
      * apply has_record_now. do 4 apply extends_logged. exact Hext.
    + intros _. apply invariant_emit. intros. now apply has_record_logged.
Qed.

(** C8.  On the four-line window of the specification the scan yields the
    identifier 42, the status Downloading, the rate 12.50 and the progress
    of 1000 bytes out of 2000, and the report of [display_info] shows the
    rate as 12.50 Mbps and the progress as 50.0%. *)
Theorem end_to_end_example path mf clock n k s :
  let lines := ["update started : download 1000/2000";
                "AppID 42";
                "App update changed : Downloading";
                "Current download rate: 12.50 Mbps"] in
  let w := World path (Readable lines) mf in
  parse_lines lines
  = Ok (Tuple6 (Some "42") (Some (float_literal "12.50")) DOWNLOADING
          (Some (float_literal "50.0")) (Some 1000) (Some 2000))
  /\ fst (parse_log_file w s) = parse_lines lines
  /\ In (INFO, "Скорость: 12.50 Mbps") (report w clock n k s)
  /\ In (INFO, "Прогресс: 50.0%") (report w clock n k s).
Proof.
  cbv zeta. split; [reflexivity|]. split; [reflexivity|].
  split; apply report_has_record, end_to_end_report; auto.
Qed.

(* ================================================================== *)
(** * What the groups of a match hold                                  *)
(* ================================================================== *)

Lemma all_chars_app c s1 s2 :
  all_chars c (s1 ++ s2) = all_chars c s1 && all_chars c s2.
Proof.
  induction s1 as [|a s1 IH]; simpl; [reflexivity|].
  now rewrite IH, andb_assoc.
Qed.

Lemma append_not_empty s a : s ++ String a EmptyString <> EmptyString.
Proof. destruct s; discriminate. Qed.

(** Each group of a match is a non-empty string over the class of the
    group. *)
Lemma match_here_groups p : forall s gs,
  Re.match_here p s = Some gs ->
  Forall2 captured_by (group_classes p) gs.
Proof.
  induction p as [|[l|c|c] p IH]; intros s gs; simpl.
  - intros [= <-]. constructor.
  - destruct (Str.drop_prefix l s); [apply IH|discriminate].
  - revert gs. induction s as [|a s IHs]; intros gs; [discriminate|].
    destruct (c a); [|discriminate].
    match goal with
    | |- context [match ?m with Some _ => _ | None => _ end] =>
        destruct m as [gs'|] eqn:Hm
    end.
    + intros [= <-]. now apply IHs.
    + apply IH.
  - assert (Hgen : forall s acc gs,
      all_chars c acc = true ->
      (fix more (acc : string) (s : string) : option (list string) :=
         match s with
         | EmptyString => None
         | String a s' =>
             if c a then
               let acc' := acc ++ String a EmptyString in
               match more acc' s' with
               | Some gs => Some gs
               | None => option_map (cons acc') (Re.match_here p s')
               end
             else None
         end) acc s = Some gs ->
      Forall2 captured_by (c :: group_classes p) gs).
    { clear s gs. induction s as [|a s IHs]; intros acc gs Hacc; [discriminate|].
      destruct (c a) eqn:Ha; [|discriminate].
      assert (Hacc' : all_chars c (acc ++ String a EmptyString) = true).
      { rewrite all_chars_app, Hacc. simpl. now rewrite Ha. }
      cbv zeta.
      match goal with
      | |- context [match ?m with Some _ => _ | None => _ end] =>
          destruct m as [gs'|] eqn:Hm
      end.
      - intros [= <-]. now apply (IHs _ _ Hacc').
      - destruct (Re.match_here p s) as [gs'|] eqn:Hp; [|discriminate].
        intros [= <-]. constructor.
        + split; [apply append_not_empty|exact Hacc'].
        + now apply (IH s). }
    apply Hgen. reflexivity.
Qed.

Lemma search_groups p : forall s gs,
  Re.search p s = Some gs ->
  Forall2 captured_by (group_classes p) gs.
Proof.
  induction s as [|a s IH]; intros gs; simpl.
  - destruct (Re.match_here p EmptyString) eqn:Hm; [|discriminate].
    intros [= <-]. now apply (match_here_groups p EmptyString).
  - destruct (Re.match_here p (String a s)) eqn:Hm.
    + intros [= <-]. now apply (match_here_groups p (String a s)).
    + apply IH.
Qed.

Lemma digit_value_range c :
  Str.is_digit c = true -> 0 <= PyInt.digit_value c <= 9.
Proof.
  unfold Str.is_digit, PyInt.digit_value. intros H.
  apply andb_true_iff in H. destruct H as [H1 H2].
  apply Nat.leb_le in H1, H2. lia.
Qed.

Lemma value_from_digits s : forall acc,
  all_chars Str.is_digit s = true -> 0 <= acc ->
  exists n, PyInt.value_from acc s = Some n /\ 0 <= n.
Proof.
  induction s as [|c s IH]; intros acc Hall Hacc;
    cbn [PyInt.value_from all_chars] in *.
  - now exists acc.
  - apply andb_true_iff in Hall. destruct Hall as [Hc Hs]. rewrite Hc.
    apply IH; [exact Hs|]. pose proof (digit_value_range c Hc) as Hr.
    unfold PyInt.digit_value in *. lia.
Qed.

(** [int] never fails on what a group of digits captured, and gives a
    number that is not negative. *)
Lemma int_of_captured_digits g :
  captured_by Str.is_digit g ->
  exists n, PyInt.of_string g = Ok n /\ 0 <= n.
Proof.
  intros [Hne Hall]. unfold PyInt.of_string.
  destruct g as [|c g]; [congruence|].
  destruct (value_from_digits (String c g) 0 Hall) as (n & -> & Hn); [lia|].
  now exists n.
Qed.

Lemma appid_re_group line gs :
  Re.search appid_re line = Some gs ->
  captured_by Str.is_digit (Re.group gs 1).
Proof.
  intros H. apply search_groups in H. simpl in H.
  inversion H as [|c g cs gs' Hg Hrest]; subst.
  inversion Hrest; subst. exact Hg.
Qed.

Lemma size_re_groups line gs :
  Re.search size_re line = Some gs ->
  captured_by Str.is_digit (Re.group gs 1)
  /\ captured_by Str.is_digit (Re.group gs 2).
Proof.
  intros H. apply search_groups in H. simpl in H.
  inversion H as [|c g cs gs' Hg Hrest]; subst.
  inversion Hrest as [|c2 g2 cs2 gs2 Hg2 Hrest2]; subst.
  inversion Hrest2; subst. now split.
Qed.


(* ================================================================== *)
(** * One iteration of the scan, in full                               *)
(* ================================================================== *)

(** An iteration that does not raise has resolved the rate without
    failure, and then either goes on with the updated local variables or
    returns them with the progress of the size pair of its line. *)
Lemma scan_line_flow st line f :
  scan_line st line = Ok f ->
  exists st2,
    find_speed (find_appid st line) line = Ok st2
    /\ (f = Next (find_status st2 line)
        \/ exists gs d t q,
            Re.search size_re line = Some gs
            /\ PyInt.of_string (Re.group gs 1) = Ok d
            /\ PyInt.of_string (Re.group gs 2) = Ok t
            /\ 0 < t
            /\ PyFloat.int_truediv d t = Ok q
            /\ truthy (appid (find_status st2 line)) = true
            /\ f = Return (Tuple6 (appid (find_status st2 line))
                             (download_speed (find_status st2 line))
                             (status (find_status st2 line))
                             (Some (PyFloat.mul_int q 100)) (Some d) (Some t))).
Proof.
  unfold scan_line.
  destruct (find_speed (find_appid st line) line) as [st2|] eqn:H2;
    [|discriminate].
  simpl. intros H. exists st2. split; [reflexivity|].
  destruct f as [st'|r].
  - left. now rewrite (find_size_next _ _ _ H).
  - right. apply find_size_return in H.
    destruct H as (_ & Ht & gs & d & t & q & Hs & Hd & Htot & Hpos & Hq & ->).
    exists gs, d, t, q. repeat split; auto.
Qed.

Lemma find_appid_value st line :
  appid (find_appid st line) =
  match appid st with
  | Some a => Some a
  | None =>
      match Re.search appid_re line with
      | Some gs => Some (Re.group gs 1)
      | None => None
      end
  end.
Proof.
  unfold find_appid. destruct st as [[a|] sp s]; simpl; [reflexivity|].
  now destruct (Re.search appid_re line).
Qed.

(** The identifier after an iteration, whichever way it ends. *)
Lemma scan_line_appid st line st2 :
  find_speed (find_appid st line) line = Ok st2 ->
  appid (find_status st2 line) =
  match appid st with
  | Some a => Some a
  | None =>
      match Re.search appid_re line with
      | Some gs => Some (Re.group gs 1)
      | None => None
      end
  end.
Proof.
  intros H2. destruct (find_speed_keeps _ _ _ H2) as [Ha _].
  destruct (find_status_keeps st2 line) as [Ha' _].
  now rewrite Ha', Ha, find_appid_value.
Qed.

(* ================================================================== *)
(** * The identifier of the result                                     *)
(* ================================================================== *)

Lemma scan_appid ls : forall st r,
  scan ls st = Ok r ->
  appid_of r = match appid st with
               | Some a => Some a
               | None => first_appid ls
               end.
Proof.
  induction ls as [|line rest IH]; intros st r; simpl.
  - intros [= <-]. simpl. now destruct (appid st).
  - destruct (scan_line st line) as [f|] eqn:Hl; [|discriminate]. simpl.
    destruct (scan_line_flow _ _ _ Hl) as (st2 & H2 & [-> | Hret]).
    + intros Hs. rewrite (IH _ _ Hs), (scan_line_appid _ _ _ H2).
      destruct (appid st); [reflexivity|].
      now destruct (Re.search appid_re line).
    + destruct Hret as (gs & d & t & q & _ & _ & _ & _ & _ & Ht & ->).
      intros [= <-]. simpl.
      rewrite (scan_line_appid _ _ _ H2) in *.
      destruct (appid st); [reflexivity|].
      destruct (Re.search appid_re line); [reflexivity|discriminate].
Qed.



Lemma first_appid_digits ls a :
  first_appid ls = Some a -> captured_by Str.is_digit a.
Proof.
  induction ls as [|line rest IH]; simpl; [discriminate|].
  destruct (Re.search appid_re line) as [gs|] eqn:Hre; [|exact IH].
  intros [= <-]. now apply (appid_re_group line).
Qed.



(* ================================================================== *)
(** * The rate of the result                                           *)
(* ================================================================== *)








(* ================================================================== *)
(** * The status of the result                                         *)
(* ================================================================== *)

Lemma find_status_is_status st line :
  is_status (status st) -> is_status (status (find_status st line)).
Proof.
  intros H. unfold find_status, is_status.
  repeat match goal with
         | |- context [if ?b then _ else _] => destruct b
         end; simpl; auto 10.
Qed.

Lemma scan_line_status st line st2 :
  find_speed (find_appid st line) line = Ok st2 ->
  status (find_status st2 line) = status (find_status st line).
Proof.
  intros H2. destruct (find_speed_keeps _ _ _ H2) as [_ Hs].
  destruct (find_appid_keeps st line) as [_ Hs'].
  rewrite !find_status_phase. destruct (phase_of line); simpl; congruence.
Qed.

Lemma scan_is_status ls : forall st r,
  scan ls st = Ok r -> is_status (status st) ->
  exists s, status_of r = Some s /\ is_status s.
Proof.
  induction ls as [|line rest IH]; intros st r; simpl.
  - intros [= <-] H. now exists (status st).
  - destruct (scan_line st line) as [f|] eqn:Hl; [|discriminate]. simpl.
    destruct (scan_line_flow _ _ _ Hl) as (st2 & H2 & Hf). intros Hs Hst.
    assert (Hnew : is_status (status (find_status st2 line))).
    { rewrite (scan_line_status _ _ _ H2). now apply find_status_is_status. }
    destruct Hf as [-> | (gs & d & t & q & _ & _ & _ & _ & _ & _ & ->)].
    + now apply (IH _ _ Hs).
    + injection Hs as <-. now eexists.
Qed.

(** X5.  The status of a result is always one of the six status texts:
    unknown, downloading, paused, verifying, preallocating or staging. *)
Theorem status_is_one_of_six lines r :
  parse_lines lines = Ok r ->
  exists s, status_of r = Some s /\ is_status s.
Proof.
  intros H. apply (scan_is_status _ _ _ H). now left.
Qed.

Lemma status_is_one_of_six_witness :
  exists s, status_of (Tuple6 None None PAUSED None None None) = Some s
            /\ is_status s.
Proof.
  apply (status_is_one_of_six ["App update changed : Paused"]). reflexivity.
Defined.

Lemma scan_status_unchanged ls : forall st r,
  scan ls st = Ok r ->
  (forall l, In l ls -> Str.contains "App update changed" l = false) ->
  status_of r = Some (status st).
Proof.
  induction ls as [|line rest IH]; intros st r; simpl.
  - now intros [= <-] _.
  - destruct (scan_line st line) as [f|] eqn:Hl; [|discriminate]. simpl.
    destruct (scan_line_flow _ _ _ Hl) as (st2 & H2 & Hf). intros Hs Hno.
    assert (Hsame : status (find_status st2 line) = status st).
    { rewrite (scan_line_status _ _ _ H2). unfold find_status.
      now rewrite (Hno line (or_introl eq_refl)). }
    destruct Hf as [-> | (gs & d & t & q & _ & _ & _ & _ & _ & _ & ->)].
    + rewrite (IH _ _ Hs); [now rewrite Hsame|]. intros l Hin. apply Hno. now right.
    + injection Hs as <-. simpl. now rewrite Hsame.
Qed.

(** X6.  A window in which no line has the phase-change marker gives the
    status unknown, whatever else the lines hold. *)
Theorem no_phase_change_gives_unknown lines r :
  parse_lines lines = Ok r ->
  (forall l, In l lines -> Str.contains "App update changed" l = false) ->
  status_of r = Some UNKNOWN.
Proof.
  intros H Hno. apply (scan_status_unchanged _ _ _ H).
  intros l Hin. apply Hno. now apply in_rev.
Qed.

Lemma no_phase_change_gives_unknown_witness :
  status_of (Tuple6 (Some "42") (Some (Finite false 25 (-1))) UNKNOWN
               (Some (Finite false 25 1)) (Some 1000) (Some 2000))
  = Some UNKNOWN.
Proof.
  apply (no_phase_change_gives_unknown
           ["AppID 42 update started : download 1000/2000";
            "Downloading at Current download rate: 12.50 Mbps"]).
  - reflexivity.
  - intros l Hin. compute in Hin. destruct Hin as [<-|[<-|[]]]; reflexivity.
Defined.

(* ================================================================== *)
(** * When the scan raises and when it returns                         *)
(* ================================================================== *)










(* ================================================================== *)
(** * The progress of the result                                       *)
(* ================================================================== *)

Lemma dyadic_sign neg m e :
  exists m' e', PyFloat.dyadic neg m e = Finite neg m' e'.
Proof.
  unfold PyFloat.dyadic. destruct m as [|p|p]; try (now eexists _, _).
  destruct (PyFloat.strip p e) as [p' e']. now eexists _, _.
Qed.

Lemma round_nonnegative p q : nonnegative (PyFloat.round false p q).
Proof.
  unfold PyFloat.round. destruct (PyFloat.nearest p q) as [[m e]|].
  - destruct (dyadic_sign false m e) as (m' & e' & ->). reflexivity.
  - reflexivity.
Qed.

Lemma progress_nonnegative d t q :
  0 <= d -> 0 < t -> PyFloat.int_truediv d t = Ok q ->
  nonnegative (PyFloat.mul_int q 100).
Proof.
  intros Hd Ht. unfold PyFloat.int_truediv.
  destruct (t =? 0); [discriminate|].
  destruct (PyFloat.nearest (Z.abs d) (Z.abs t)) as [[m e]|]; [|discriminate].
  replace (d <? 0) with false by (symmetry; apply Z.ltb_ge; lia).
  replace (t <? 0) with false by (symmetry; apply Z.ltb_ge; lia).
  destruct (dyadic_sign (xorb false false) m e) as (m' & e' & ->).
  intros [= <-]. apply round_nonnegative.
Qed.

Lemma scan_progress_components ls : forall st r,
  scan ls st = Ok r ->
  (progress_of r = None /\ downloaded_of r = None /\ total_of r = None)
  \/ (exists p d t q,
         progress_of r = Some p
         /\ downloaded_of r = Some d
         /\ total_of r = Some t
         /\ 0 <= d /\ 0 < t
         /\ PyFloat.int_truediv d t = Ok q
         /\ p = PyFloat.mul_int q 100
         /\ nonnegative p).
Proof.
  induction ls as [|line rest IH]; intros st r; simpl.
  - intros [= <-]. left. now repeat split.
  - destruct (scan_line st line) as [f|] eqn:Hl; [|discriminate]. simpl.
    destruct (scan_line_flow _ _ _ Hl)
      as (st2 & H2 & [-> | (gs & d & t & q & Hre & Hd & Ht & Hpos & Hq & _ & ->)]).
    + apply IH.
    + intros [= <-]. right.
      destruct (size_re_groups _ _ Hre) as [Hg1 _].
      destruct (int_of_captured_digits _ Hg1) as (d' & Hd' & Hnn).
      assert (d' = d) by congruence. subst d'.
      exists (PyFloat.mul_int q 100), d, t, q. repeat split; auto.
      now apply (progress_nonnegative d t).
Qed.

(** X9.  The three progress components of a result come together or not
    at all.  When present, the bytes downloaded are not negative, the total
    is positive, and the progress is the float quotient downloaded/total
    multiplied by 100, which is never negative and never a NaN. *)
Theorem progress_components_agree lines r :
  parse_lines lines = Ok r ->
  (progress_of r = None /\ downloaded_of r = None /\ total_of r = None)
  \/ (exists p d t q,
         progress_of r = Some p
         /\ downloaded_of r = Some d
         /\ total_of r = Some t
         /\ 0 <= d /\ 0 < t
         /\ PyFloat.int_truediv d t = Ok q
         /\ p = PyFloat.mul_int q 100
         /\ nonnegative p).
Proof.
  apply scan_progress_components.
Qed.

Lemma progress_components_agree_witness :
  (progress_of (Tuple6 (Some "42") None UNKNOWN (Some (Finite false 75 0))
                  (Some 1500) (Some 2000)) = None
   /\ downloaded_of (Tuple6 (Some "42") None UNKNOWN (Some (Finite false 75 0))
                       (Some 1500) (Some 2000)) = None
   /\ total_of (Tuple6 (Some "42") None UNKNOWN (Some (Finite false 75 0))
                  (Some 1500) (Some 2000)) = None)
  \/ (exists p d t q,
         progress_of (Tuple6 (Some "42") None UNKNOWN (Some (Finite false 75 0))
                        (Some 1500) (Some 2000)) = Some p
         /\ downloaded_of (Tuple6 (Some "42") None UNKNOWN
                             (Some (Finite false 75 0))
                             (Some 1500) (Some 2000)) = Some d
         /\ total_of (Tuple6 (Some "42") None UNKNOWN (Some (Finite false 75 0))
                        (Some 1500) (Some 2000)) = Some t
         /\ 0 <= d /\ 0 < t
         /\ PyFloat.int_truediv d t = Ok q
         /\ p = PyFloat.mul_int q 100
         /\ nonnegative p).
Proof.
  apply (progress_components_agree
           ["AppID 42 update started : download 1500/2000"]).
  reflexivity.
Defined.

(* ================================================================== *)
(** * The window                                                       *)
(* ================================================================== *)

(** X1.  The window is the log itself when it has at most 50 lines and its
    last 50 lines otherwise: it is always an end piece of the log, with the
    smaller of 50 and the number of lines of the log, so no line before the
    last 50 reaches the scan. *)
Theorem window_is_last_fifty_lines (lines : list string) :
  (exists older, lines = (older ++ last_lines lines)%list)
  /\ List.length (last_lines lines) = Nat.min 50 (List.length lines)
  /\ forall older recent path mf s,
      (50 <= List.length recent)%nat ->
      parse_log_file (World path (Readable (older ++ recent)%list) mf) s
      = parse_log_file (World path (Readable recent) mf) s.
Proof.
  assert (Hlast : forall ls older : list string,
             (50 <= List.length ls)%nat ->
             last_lines (older ++ ls) = skipn (List.length ls - 50) ls).
  { intros ls older Hlen. unfold last_lines. rewrite length_app.
    destruct (Nat.ltb_spec 50 (List.length older + List.length ls)).
    - rewrite skipn_app.
      replace (List.length older + List.length ls - 50 - List.length older)%nat
        with (List.length ls - 50)%nat by lia.
      rewrite skipn_all2 by lia. reflexivity.
    - assert (List.length older = 0%nat) by lia.
      destruct older; [|discriminate]. simpl.
      replace (List.length ls - 50)%nat with 0%nat by lia. reflexivity. }
  split; [|split].
  - unfold last_lines. destruct (50 <? List.length lines)%nat.
    + exists (firstn (List.length lines - 50) lines).
      now rewrite firstn_skipn.
    + now exists [].
  - unfold last_lines. destruct (Nat.ltb_spec 50 (List.length lines)).
    + rewrite length_skipn. lia.
    + lia.
  - intros older recent path mf s Hlen. unfold parse_log_file. simpl.
    rewrite (Hlast recent older) by lia.
    pose proof (Hlast recent [] ltac:(lia)) as Hown. simpl in Hown.
    now rewrite Hown.
Qed.

Lemma window_is_last_fifty_lines_witness :
  parse_log_file
    (World "content_log.txt"
       (Readable (["AppID 7"; "App update changed : Paused"]
                  ++ List.repeat "noise" 49 ++ ["AppID 42"])%list)
       (fun _ => Absent)) initial_monitor
  = parse_log_file
      (World "content_log.txt"
         (Readable (List.repeat "noise" 49 ++ ["AppID 42"])%list)
         (fun _ => Absent)) initial_monitor.
Proof.
  refine (proj2 (proj2 (window_is_last_fifty_lines [])) _ _ _ _ _ _).
  simpl. lia.
Defined.

(* ================================================================== *)
(** * The lookup of the name                                           *)
(* ================================================================== *)

Lemma name_re_group p content gs :
  p = quoted_name_re \/ p = bare_name_re ->
  Re.search p content = Some gs ->
  captured_by Str.not_dquote (Re.group gs 1).
Proof.
  intros [-> | ->] H; apply search_groups in H; simpl in H;
    inversion H as [|c g cs gs' Hg Hrest]; subst;
    inversion Hrest; subst; exact Hg.
Qed.

Lemma lookup_result w a s :
  exists name,
    fst (get_game_name_from_manifest w a s) = Ok name
    /\ (name = placeholder a
        \/ (captured_by Str.not_dquote name
            /\ exists content, manifest w a = Readable content)).
Proof.
  unfold get_game_name_from_manifest.
  destruct (manifest w a) as [|err|content] eqn:Hm.
  - exists (placeholder a). split; [reflexivity|now left].
  - exists (placeholder a). split; [reflexivity|now left].
  - destruct (Re.search quoted_name_re content) as [gs|] eqn:Hq.
    + exists (Re.group gs 1). split; [reflexivity|]. right. split.
      * apply (name_re_group quoted_name_re content); auto.
      * now exists content.
    + destruct (Re.search bare_name_re content) as [gs|] eqn:Hb.
      * exists (Re.group gs 1). split; [reflexivity|]. right. split.
        -- apply (name_re_group bare_name_re content); auto.
        -- now exists content.
      * exists (placeholder a). split; [reflexivity|now left].
Qed.

(** X10.  The lookup of a name never raises.  It returns the placeholder
    built from the identifier, or a name read from a manifest that exists
    and is readable; such a name is never empty and holds no double quote. *)
Theorem lookup_returns_name_or_placeholder w a s :
  exists name,
    fst (get_game_name_from_manifest w a s) = Ok name
    /\ (name = placeholder a
        \/ (captured_by Str.not_dquote name
            /\ exists content, manifest w a = Readable content)).
Proof.
  apply lookup_result.
Qed.

(* ================================================================== *)
(** * More on [display_info]                                           *)
(* ================================================================== *)

(** An identifier that [parse_log_file] returns is not empty. *)
Lemma parsed_identifier_not_empty w s r a :
  fst (parse_log_file w s) = Ok r -> appid_of r = Some a ->
  a <> EmptyString.
Proof.
  rewrite parse_log_file_result. intros H Ha.
  destruct (log_file w); try (injection H as <-; discriminate).
  pose proof (scan_appid _ _ _ H) as Hfirst. simpl in Hfirst.
  rewrite Ha in Hfirst. symmetry in Hfirst.
  now destruct (first_appid_digits _ _ Hfirst).
Qed.

(** X11.  When the window gives no identifier, or the cached one, a check
    does not consult the manifests: with any other manifest files it ends in
    the same state with the same outcome and the same records. *)
Theorem unchanged_identifier_needs_no_lookup w mf clock n k s :
  (forall r a, fst (parse_log_file w s) = Ok r -> appid_of r = Some a ->
               current_appid s = Some a) ->
  display_info (with_manifest w mf) clock n k s = display_info w clock n k s.
Proof.
  intros Hcached.
  pose proof (parse_log_file_keeps_cache s w s (same_cache_refl s)) as [Hcur _].
  unfold display_info, bind.
  change (parse_log_file (with_manifest w mf)) with (parse_log_file w).
  destruct (parse_log_file w s) as [[r|e] s1] eqn:Hp; [|reflexivity].
  simpl in Hcur.
  destruct r as [|a sp st pr d t]; [reflexivity|]. simpl.
  destruct a as [a|]; [|reflexivity].
  destruct (truthy (Some a)); [|reflexivity].
  assert (Ha : current_appid s = Some a).
  { now apply (Hcached (Tuple6 (Some a) sp st pr d t)). }
  cbn [current_appid]. rewrite Hcur, Ha, String.eqb_refl. reflexivity.
Qed.

Lemma unchanged_identifier_needs_no_lookup_witness :
  display_info
    (with_manifest
       (World "content_log.txt" (Readable ["AppID 42"]) (fun _ => Absent))
       (fun _ => Readable portal_manifest))
    "12:00:00" 2 5 (Monitor (Some "42") (Some "Some game") [])
  = display_info
      (World "content_log.txt" (Readable ["AppID 42"]) (fun _ => Absent))
      "12:00:00" 2 5 (Monitor (Some "42") (Some "Some game") []).
Proof.
  apply unchanged_identifier_needs_no_lookup.
  intros r a Hr Ha. vm_compute in Hr. injection Hr as <-.
  simpl in Ha. now rewrite Ha.
Defined.

(** X12.  When the window gives an identifier other than the cached one,
    a check looks the name up once and caches the identifier with what the
    lookup returned, be it the name of the manifest or the placeholder. *)
Theorem new_identifier_is_looked_up_and_cached w clock n k s r a :
  fst (parse_log_file w s) = Ok r -> appid_of r = Some a ->
  current_appid s <> Some a ->
  exists name,
    fst (get_game_name_from_manifest w a s) = Ok name
    /\ current_appid (snd (display_info w clock n k s)) = Some a
    /\ game_name (snd (display_info w clock n k s)) = Some name.
Proof.
  intros Hr Ha Hcur.
  destruct (lookup_result w a s) as (name & Hname & _).
  exists name. split; [exact Hname|].
  apply (display_info_resolves w clock n k s r a name); auto.
  now apply (parsed_identifier_not_empty w s r).
Qed.

Lemma new_identifier_is_looked_up_and_cached_witness :
  let w := World "content_log.txt" (Readable ["AppID 42"])
             (fun _ => Readable portal_manifest) in
  exists name,
    fst (get_game_name_from_manifest w "42" initial_monitor) = Ok name
    /\ current_appid (snd (display_info w "12:00:00" 1 5 initial_monitor))
       = Some "42"
    /\ game_name (snd (display_info w "12:00:00" 1 5 initial_monitor))
       = Some name.
Proof.
  cbv zeta.
  apply (new_identifier_is_looked_up_and_cached _ _ _ _ _
           (Tuple6 (Some "42") None UNKNOWN None None None));
    [reflexivity|reflexivity|discriminate].
Defined.



(* ================================================================== *)
(** * Computations that do not raise                                   *)
(* ================================================================== *)

Lemma returns_ret {A} (a : A) : returns (ret a).
Proof. intros s. now exists a. Qed.

Lemma returns_emit l msg : returns (emit l msg).
Proof. intros s. now exists tt. Qed.

Lemma returns_get_game_name : returns get_game_name.
Proof. intros s. now eexists. Qed.

Lemma returns_get_current_appid : returns get_current_appid.
Proof. intros s. now eexists. Qed.

Lemma returns_set_game_name name : returns (set_game_name name).
Proof. intros s. now exists tt. Qed.

Lemma returns_set_current_appid a : returns (set_current_appid a).
Proof. intros s. now exists tt. Qed.

Lemma returns_lift {A} (o : outcome A) a : o = Ok a -> returns (lift o).
Proof. intros -> s. now exists a. Qed.

Lemma returns_bind {A B} (c : M A) (k : A -> M B) :
  returns c -> (forall a, returns (k a)) -> returns (bind c k).
Proof.
  intros Hc Hk s. unfold bind. destruct (Hc s) as (a & Ha).
  destruct (c s) as [o s1]. simpl in Ha. subst o. apply Hk.
Qed.

Lemma returns_bind_ret {A B} (a : A) (k : A -> M B) :
  returns (k a) -> returns (bind (ret a) k).
Proof. intros H s. apply H. Qed.

Lemma returns_when b (c : M unit) : returns c -> returns (when b c).
Proof. intros H. unfold when. destruct b; [exact H|apply returns_ret]. Qed.

Lemma returns_lookup w a : returns (get_game_name_from_manifest w a).
Proof.
  intros s. destruct (lookup_result w a s) as (name & Hname & _).
  now exists name.
Qed.

Ltac returns_step :=
  match goal with
  | |- returns (ret _) => apply returns_ret
  | |- returns (emit _ _) => apply returns_emit
  | |- returns get_game_name => apply returns_get_game_name
  | |- returns get_current_appid => apply returns_get_current_appid
  | |- returns (set_game_name _) => apply returns_set_game_name
  | |- returns (set_current_appid _) => apply returns_set_current_appid
  | |- returns (get_game_name_from_manifest _ _) => apply returns_lookup
  | |- returns (when _ _) => apply returns_when
  | |- returns (bind _ _) => apply returns_bind; [|intros ?]
  end.

(** [format_size] returns for every count below [2^1024] and for an
    absent count. *)
Lemma format_size_returns b :
  (forall n, b = Some n -> n < 2 ^ 1024) ->
  exists text, format_size b = Ok text.
Proof.
  intros Hb. unfold format_size. destruct b as [n|]; [|now eexists].
  specialize (Hb n eq_refl).
  assert (Hdiv : forall c, 1024 <= c -> c <= n ->
                           exists x, PyFloat.int_truediv n c = Ok x).
  { intros c Hc Hcn. apply int_truediv_in_range; [lia|].
    rewrite (Z.abs_eq n), (Z.abs_eq c) by lia.
    assert (Z.log2 n < 1024) by (apply Z.log2_lt_pow2; lia).
    pose proof (Z.log2_le_mono 1024 c Hc) as Hlog.
    change (Z.log2 1024) with 10 in Hlog. lia. }
  destruct (Z.leb_spec (1024 ^ 3) n) as [H3|H3].
  { destruct (Hdiv (1024 ^ 3)) as (x & ->); [lia|exact H3|]. now eexists. }
  destruct (Z.leb_spec (1024 ^ 2) n) as [H2|H2].
  { destruct (Hdiv (1024 ^ 2)) as (x & ->); [lia|exact H2|]. now eexists. }
  destruct (Z.leb_spec 1024 n) as [H1|H1].
  { destruct (Hdiv 1024) as (x & ->); [lia|exact H1|]. now eexists. }
  now eexists.
Qed.

(** X14.  A check returns normally whenever [parse_log_file] returns a
    tuple of six values whose byte counts, if any, are below [2^1024]:
    nothing in the lookup of the name or in the rendering raises. *)
Theorem display_info_returns w clock n k s r :
  fst (parse_log_file w s) = Ok r ->
  r <> NoneTriple ->
  (forall d, downloaded_of r = Some d -> d < 2 ^ 1024) ->
  (forall t, total_of r = Some t -> t < 2 ^ 1024) ->
  fst (display_info w clock n k s) = Ok tt.
Proof.
  intros Hr Hsix Hd Ht.
  assert (Hret : exists u, fst (display_info w clock n k s) = Ok u).
  { unfold display_info. unfold bind at 1.
    destruct (parse_log_file w s) as [o s1]. simpl in Hr. subst o.
    destruct r as [|a sp st pr d t]; [congruence|]. simpl in Hd, Ht.
    destruct (format_size_returns d Hd) as (dtext & Hdtext).
    destruct (format_size_returns t Ht) as (ttext & Httext).
    cbn [unpack6].
    match goal with
    | |- exists u, fst (?c s1) = Ok u => cut (returns c); [intros H; apply H|]
    end.
    apply returns_bind_ret. cbv beta iota.
    repeat first
      [ returns_step
      | apply (returns_lift _ _ Hdtext)
      | apply (returns_lift _ _ Httext)
      | match goal with
        | |- returns (match ?x with _ => _ end) => destruct x
        end ]. }
  destruct Hret as ([] & H). exact H.
Qed.

Lemma display_info_returns_witness :
  fst (display_info
         (World "content_log.txt"
            (Readable ["AppID 42 update started : download 1000/2000"])
            (fun _ => Absent))
         "12:00:00" 1 5 initial_monitor) = Ok tt.
Proof.
  apply (display_info_returns _ _ _ _ _
           (Tuple6 (Some "42") None UNKNOWN (Some (Finite false 25 1))
              (Some 1000) (Some 2000))).
  - reflexivity.
  - discriminate.
  - intros d [= <-]. reflexivity.
  - intros t [= <-]. reflexivity.
Defined.

(* ================================================================== *)
(** * What the report of a session holds                               *)
(* ================================================================== *)

Lemma parse_log_file_extends old w :
  invariant (extends old) (parse_log_file w).
Proof.
  unfold parse_log_file.
  repeat (invariant_step; try (intros; now apply extends_logged)).
Qed.

(** X15.  Whenever the window gives an identifier, the report of the
    check holds the record of the name, which is the name cached when the
    check ends, the record of the identifier and the record of the status;
    they are logged before anything that can still raise. *)
Theorem session_report_shows_name_identifier_status w clock n k s r a st :
  fst (parse_log_file w s) = Ok r ->
  appid_of r = Some a -> status_of r = Some st ->
  let s' := snd (display_info w clock n k s) in
  In (INFO, "Игра: " ++ str_of_option (game_name s')) (report w clock n k s)
  /\ In (INFO, "AppID: " ++ a) (report w clock n k s)
  /\ In (INFO, "Статус: " ++ st) (report w clock n k s).
Proof.
  intros Hr Ha Hst. cbv zeta.
  set (Q := fun s'' : monitor =>
         has_record (INFO, "Игра: " ++ str_of_option (game_name s''))
                    (records s) s''
         /\ has_record (INFO, "AppID: " ++ a) (records s) s''
         /\ has_record (INFO, "Статус: " ++ st) (records s) s'').
  assert (HQ : Q (snd (display_info w clock n k s))).
  { pose proof (parsed_identifier_not_empty w s r a Hr Ha) as Hne.
    destruct r as [|a' sp st' pr d t]; [discriminate|].
    simpl in Ha, Hst. subst a'. injection Hst as ->.
    pose proof (parse_log_file_extends (records s) w s (extends_refl s)) as Hs1.
    unfold display_info.
    apply snd_bind. rewrite Hr.
    set (s1 := snd (parse_log_file w s)) in *. clearbody s1.
    apply snd_bind. cbn [unpack6 ret fst snd].
    do 3 apply snd_bind_emit.
    replace (truthy (Some a)) with true by (destruct a; [congruence|reflexivity]).
    apply snd_bind. cbn [get_current_appid fst snd].
    apply snd_bind.
    match goal with
    | |- context [when ?b _ ?s2] =>
        destruct (lookup_block_returns (records s) b w a s2) as [-> Hext];
        [do 3 apply extends_logged; exact Hs1|]
    end.
    match goal with
    | H : extends _ ?t |- _ => set (s3 := t) in *; clearbody s3
    end.
    apply snd_bind. cbn [get_game_name fst snd].
    do 3 apply snd_bind_emit.
    apply invariant_run.
    - repeat (invariant_step;
              try (intros ? (H1 & H2 & H3);
                   repeat split; now apply has_record_logged)).
    - repeat split.
      + do 2 apply has_record_logged. now apply has_record_now.
      + apply has_record_logged. apply has_record_now.
        now apply extends_logged.
      + apply has_record_now. now do 2 apply extends_logged. }
  destruct HQ as (H1 & H2 & H3).
  repeat split; now apply report_has_record.
Qed.

Lemma session_report_shows_name_identifier_status_witness :
  let w := World "content_log.txt"
             (Readable ["AppID 42"; "App update changed : Paused"])
             (fun _ => Readable portal_manifest) in
  let s' := snd (display_info w "12:00:00" 1 5 initial_monitor) in
  In (INFO, "Игра: " ++ str_of_option (game_name s'))
     (report w "12:00:00" 1 5 initial_monitor)
  /\ In (INFO, "AppID: " ++ "42") (report w "12:00:00" 1 5 initial_monitor)
  /\ In (INFO, "Статус: " ++ PAUSED) (report w "12:00:00" 1 5 initial_monitor).
Proof.
  cbv zeta.
  apply (session_report_shows_name_identifier_status _ _ _ _ _
           (Tuple6 (Some "42") None PAUSED None None None));
    reflexivity.
Defined.

(** Side conditions of the rules on a record that is not a progress
    record, and on a write to an attribute. *)
Ltac progress_side :=
  lazymatch goal with
  | |- forall s, _ -> records_extend _ _ (logged s _) =>
      intros; apply records_extend_logged;
      [let H := fresh in intros H; lazy in H; discriminate H|assumption]
  | |- forall s, _ -> records_extend _ _ (Monitor _ _ (records s)) =>
      intros; apply records_extend_attributes; assumption
  end.

Lemma manifest_lookup_progress_records w s0 a :
  invariant (records_extend (progress_record_justified w s0) (records s0))
            (get_game_name_from_manifest w a).
Proof.
  unfold get_game_name_from_manifest.
  repeat (invariant_step; try progress_side).
Qed.

Lemma display_info_progress_records w clock n k s0 :
  invariant (records_extend (progress_record_justified w s0) (records s0))
            (display_info w clock n k).
Proof.
  unfold display_info.
  apply invariant_bind_result with (o := fst (parse_log_file w s0)).
  { intros s. apply parse_log_file_result_fixed. }
  { unfold parse_log_file. repeat (invariant_step; try progress_side). }
  intros t Ht. destruct t as [|a sp st pr d t]; simpl unpack6.
  { apply invariant_bind_raise. }
  apply invariant_bind_ret. cbv beta iota.
  repeat (first [apply manifest_lookup_progress_records|invariant_step];
          try progress_side).
  intros s' Hs'. apply records_extend_logged; [|exact Hs']. intros _.
  eexists _, _. split; [exact Ht|]. split; reflexivity.
Qed.

(** X16.  Every progress record of a report is the formatted progress of
    the result of [parse_log_file]; so a result without progress gives a
    report without a progress record. *)
Theorem progress_shown_only_when_present w clock n k s :
  (forall rec,
      In rec (report w clock n k s) -> is_progress_record rec = true ->
      exists r p,
        fst (parse_log_file w s) = Ok r
        /\ progress_of r = Some p
        /\ rec = (INFO, "Прогресс: " ++ PyFloat.format_fixed 1 p ++ "%"))
  /\ (forall r,
         fst (parse_log_file w s) = Ok r -> progress_of r = None ->
         forall rec, In rec (report w clock n k s) ->
                     is_progress_record rec = false).
Proof.
  assert (Hall : Forall (progress_record_justified w s) (report w clock n k s)).
  { apply report_of_extension.
    apply display_info_progress_records, records_extend_refl. }
  rewrite Forall_forall in Hall. split.
  - intros rec Hin. exact (Hall rec Hin).
  - intros r Hr Hnone rec Hin.
    destruct (is_progress_record rec) eqn:Hrec; [|reflexivity].
    destruct (Hall rec Hin Hrec) as (r' & p & Hr' & Hp & _).
    rewrite Hr in Hr'. injection Hr' as <-. congruence.
Qed.

Lemma progress_shown_only_when_present_witness :
  (exists r p,
      fst (parse_log_file
             (World "content_log.txt"
                (Readable ["AppID 42 update started : download 1000/2000"])
                (fun _ => Absent))
             initial_monitor) = Ok r
      /\ progress_of r = Some p
      /\ (INFO, "Прогресс: 50.0%")
         = (INFO, "Прогресс: " ++ PyFloat.format_fixed 1 p ++ "%"))
  /\ is_progress_record (INFO, "AppID: 42") = false.
Proof.
  split.
  - refine (proj1 (progress_shown_only_when_present
              (World "content_log.txt"
                 (Readable ["AppID 42 update started : download 1000/2000"])
                 (fun _ => Absent))
              "12:00:00" 1 5 initial_monitor)
              (INFO, "Прогресс: 50.0%") _ eq_refl).
    vm_compute. auto 10.
  - refine (proj2 (progress_shown_only_when_present
              (World "content_log.txt" (Readable ["AppID 42"]) (fun _ => Absent))
              "12:00:00" 1 5 initial_monitor)
              (Tuple6 (Some "42") None UNKNOWN None None None)
              eq_refl eq_refl (INFO, "AppID: 42") _).
    vm_compute. auto 10.
Defined.

(* ================================================================== *)
(** * The wait between two checks                                      *)
(* ================================================================== *)

Lemma countdown_segments (k : nat) : forall n,
  10 * Z.of_nat k < n <= 10 * Z.of_nat (S k) ->
  let segments :=
    map (fun i => if 10 <? n - 10 * Z.of_nat i
                  then 10 else n - 10 * Z.of_nat i)
        (seq 0 (S k)) in
  fold_right Z.add 0 segments = n
  /\ Forall (fun seg => 0 < seg <= 10) segments.
Proof.
  induction k as [|k IH]; intros n Hn; cbv zeta.
  - simpl seq. cbn [map fold_right].
    replace (n - 10 * Z.of_nat 0) with n by lia.
    destruct (Z.ltb_spec 10 n); [lia|].
    split; [lia|]. constructor; [lia|constructor].
  - change (seq 0 (S (S k))) with (0%nat :: seq 1 (S k)).
    rewrite <- seq_shift, map_cons, map_map.
    replace (n - 10 * Z.of_nat 0) with n by lia.
    destruct (Z.ltb_spec 10 n); [|lia].
    destruct (IH (n - 10)) as [Hsum Hall]; [lia|].
    assert (Heq :
      map (fun i => if 10 <? n - 10 * Z.of_nat (S i)
                    then 10 else n - 10 * Z.of_nat (S i)) (seq 0 (S k))
      = map (fun i => if 10 <? n - 10 - 10 * Z.of_nat i
                      then 10 else n - 10 - 10 * Z.of_nat i) (seq 0 (S k))).
    { apply map_ext. intros i.
      replace (n - 10 * Z.of_nat (S i)) with (n - 10 - 10 * Z.of_nat i) by lia.
      reflexivity. }
    rewrite Heq. cbn [fold_right]. split.
    + rewrite Hsum. lia.
    + constructor; [lia|exact Hall].
Qed.

(** X17.  The wait between two checks sleeps in segments of at most ten
    seconds each, none of them empty, that add up to the interval; with an
    interval that is not positive it does not sleep at all. *)
Theorem wait_sleeps_the_interval_in_short_segments (interval_seconds : Z) :
  fold_right Z.add 0 (sleep_segments interval_seconds)
  = Z.max 0 interval_seconds
  /\ Forall (fun seg => 0 < seg <= 10) (sleep_segments interval_seconds).
Proof.
  unfold sleep_segments, countdown. rewrite map_map.
  set (q := (interval_seconds + 9) / 10).
  assert (Hlow : 10 * q <= interval_seconds + 9)
    by (apply Z.mul_div_le; lia).
  assert (Hhigh : interval_seconds + 9 < 10 * Z.succ q)
    by (apply Z.mul_succ_div_gt; lia).
  destruct (Z.le_gt_cases interval_seconds 0) as [Hle|Hgt].
  - replace (Z.to_nat q) with 0%nat by lia.
    simpl. split; [lia|constructor].
  - replace (Z.to_nat q) with (S (Z.to_nat (q - 1))) by lia.
    destruct (countdown_segments (Z.to_nat (q - 1)) interval_seconds)
      as [Hsum Hall]; [lia|].
    split; [rewrite Hsum; lia|exact Hall].
Qed.

(* ================================================================== *)
(** * The loop of [monitor]                                            *)
(* ================================================================== *)




